(** * LokGeet: the entry store and the intake pipeline of [app/app.py]

    A shallow embedding of the Streamlit script [app/app.py]: the file
    system it reads and writes, the helpers [load_model],
    [transcribe_with_whisper], [romanize], [load_db] and [save_entry], and
    one execution of the script body as a function of the values its
    widgets return.

    Conventions.
    - A Python [str] is a Rocq [string] holding the UTF-8 encoding of the
      text; [bytes] are [list byte].
    - A value that [json] can produce or consume is a [pyval].
    - Statements run in the monad [M]: they read and update the [world]
      (files, directories, the global [MODEL]), may raise an [exn], and
      append to the list of messages shown to the operator.  A raised
      exception stops the script; what was written before stays written.
    - The libraries the script calls ([json], faster-whisper,
      indic-transliteration) and its installation directory are parameters:
      the class [JsonModule] and the variables of section [App].
    - Streamlit is the source of [inputs]: what each widget returns in one
      execution and the two clock readings.  Which combinations of widget
      values Streamlit hands to one execution is not modelled; the script is
      followed for every combination.  Calls that only lay out or style the
      page ([st.markdown], [st.set_page_config], [st.columns]) are left
      out; the messages of [st.success], [st.error], [st.info] and
      [st.json] are recorded. *)

From Stdlib Require Import ZArith String Ascii List.
From Stdlib.Strings Require Import Byte.
From stdpp Require Import base gmap strings list pretty.

Local Open Scope string_scope.
Local Open Scope list_scope.

#[local] Set Warnings "-register-all".

(** ** Python values *)

(** The values of the [json] module: [None], [bool], [int], [float], [str],
    [list] and [dict] with [str] keys.  A [float] is carried by its [repr],
    the only thing the script does with one.  A [dict] keeps insertion
    order. *)
Inductive pyval : Type :=
| PNone
| PBool (b : bool)
| PInt (z : Z)
| PFloat (repr : string)
| PStr (s : string)
| PList (l : list pyval)
| PDict (d : list (string * pyval)).

(** ** Exceptions *)

Inductive exn : Type :=
| JSONDecodeError        (* json.loads on text that is not JSON *)
| AttributeError         (* [db.append] on a value that is not a list *)
| TypeError              (* [len] of a value without length *)
| FileNotFoundError      (* opening a file in a directory that is absent *)
| IsADirectoryError      (* reading or writing a path that is a directory *)
| FileExistsError        (* [mkdir] on a path that is a regular file *)
| ProviderError (msg : string).  (* raised inside faster-whisper *)

(** ** Paths and the file system *)

(** An absolute, resolved path is the list of its components below the
    root. *)
Definition path : Type := list string.

(** [p / name] for a single relative component [name]. *)
Definition path_div (p : path) (name : string) : path := p ++ [name].

Definition parent (p : path) : path := removelast p.

(** [str(p)] *)
Definition str_path (p : path) : string :=
  match p with
  | [] => "/"
  | _ => String.concat "" (map (fun c => "/" +:+ c) p)
  end.

Record world : Type := World {
  files : gmap path (list byte);   (* regular files and their contents *)
  dirs : gset path;                (* directories *)
  MODEL : option string            (* the global [MODEL]: the loaded model's size *)
}.

Definition set_files (f : gmap path (list byte)) (w : world) : world :=
  World f (dirs w) (MODEL w).
Definition set_dirs (d : gset path) (w : world) : world :=
  World (files w) d (MODEL w).
Definition set_MODEL (m : option string) (w : world) : world :=
  World (files w) (dirs w) m.

(** ** Messages shown to the operator *)

Inductive ui : Type :=
| st_success (msg : string)
| st_error (msg : string)
| st_info (msg : string)
| st_json (v : pyval)
| sidebar_success (msg : string)
| sidebar_info (msg : string).

(** ** The monad of script statements *)

Definition M (A : Type) : Type := world -> (exn + A) * world * list ui.

Definition ret {A} (a : A) : M A := fun w => (inr a, w, []).

Definition bind {A B} (m : M A) (k : A -> M B) : M B :=
  fun w =>
    match m w with
    | (inl e, w1, o1) => (inl e, w1, o1)
    | (inr a, w1, o1) =>
        match k a w1 with
        | (r, w2, o2) => (r, w2, o1 ++ o2)
        end
    end.

Definition raise {A} (e : exn) : M A := fun w => (inl e, w, []).
Definition show (u : ui) : M unit := fun w => (inr tt, w, [u]).
Definition get_world : M world := fun w => (inr w, w, []).
(** [MODEL = m] *)
Definition assign_MODEL (m : option string) : M unit :=
  fun w => (inr tt, set_MODEL m w, []).
Definition lift {A} (r : exn + A) : M A := fun w => (r, w, []).

Declare Scope script_scope.
Delimit Scope script_scope with script.
Notation "x <- m ;; k" := (bind m (fun x => k))
  (at level 100, m at next level, right associativity) : script_scope.
Notation "m ;;; k" := (bind m (fun _ => k))
  (at level 100, right associativity) : script_scope.
Local Open Scope script_scope.

(** [if c: body] without an [else]. *)
Definition when (c : bool) (body : M unit) : M unit :=
  if c then body else ret tt.

(** The projections of one execution. *)
Definition result_of {A} (r : (exn + A) * world * list ui) : exn + A := r.1.1.
Definition world_of {A} (r : (exn + A) * world * list ui) : world := r.1.2.
Definition shown_of {A} (r : (exn + A) * world * list ui) : list ui := r.2.

(** *** File-system primitives *)

(** [p.exists()] *)
Definition path_exists (p : path) : M bool :=
  fun w => (inr (bool_decide (is_Some (files w !! p)) || bool_decide (p ∈ dirs w)), w, []).

(** [p.mkdir(parents=True, exist_ok=True)]: a regular file in the way is an
    error, an existing directory is not. *)
Definition mkdir_p (p : path) : M unit :=
  fun w =>
    match files w !! p with
    | Some _ => (inl FileExistsError, w, [])
    | None => (inr tt, set_dirs ({[p]} ∪ dirs w) w, [])
    end.

(** Reading all bytes of [p]. *)
Definition read_bytes (p : path) : M (list byte) :=
  fun w =>
    if bool_decide (p ∈ dirs w) then (inl IsADirectoryError, w, [])
    else match files w !! p with
         | Some b => (inr b, w, [])
         | None => (inl FileNotFoundError, w, [])
         end.

(** [open(p, "wb").write(b)]: creates or truncates [p]; the directory of [p]
    has to exist and [p] must not be a directory. *)
Definition write_bytes (p : path) (b : list byte) : M unit :=
  fun w =>
    if bool_decide (p ∈ dirs w) then (inl IsADirectoryError, w, [])
    else if bool_decide (parent p ∈ dirs w)
         then (inr tt, set_files (<[p := b]> (files w)) w, [])
         else (inl FileNotFoundError, w, []).

(** [p.read_text(encoding="utf8")] and [p.write_text(s, encoding="utf8")]:
    text is held as its UTF-8 bytes. *)
Definition read_text (p : path) : M string :=
  b <- read_bytes p ;; ret (string_of_list_byte b).

Definition write_text (p : path) (s : string) : M unit :=
  write_bytes p (list_byte_of_string s).

(** ** Python built-ins the script uses *)

(** *** [datetime] *)

Record datetime : Type := Datetime {
  year : nat; month : nat; day : nat;
  hour : nat; minute : nat; second : nat; microsecond : nat
}.

Record date : Type := Date { d_year : nat; d_month : nat; d_day : nat }.

(** [dt.date()] *)
Definition date_of (dt : datetime) : date := Date (year dt) (month dt) (day dt).


Definition digit (n : nat) : ascii := ascii_of_nat (48 + n).

(** The last [width] decimal digits of [n]. *)
Fixpoint fixed_digits (width n : nat) : string :=
  match width with
  | O => ""
  | S width' => fixed_digits width' (n / 10) +:+ String (digit (n mod 10)) ""
  end.

(** A decimal number padded with zeros on the left to [width] digits; a
    number that needs more digits is written in full. *)
Definition zpad (width n : nat) : string :=
  if (n <? 10 ^ width)%nat then fixed_digits width n else pretty n.

(** [dt.strftime("%Y%m%dT%H%M%SZ")] *)
Definition strftime_id (dt : datetime) : string :=
  zpad 4 (year dt) +:+ zpad 2 (month dt) +:+ zpad 2 (day dt) +:+ "T" +:+
  zpad 2 (hour dt) +:+ zpad 2 (minute dt) +:+ zpad 2 (second dt) +:+ "Z".

(** [str(d)] for a [date]: ISO format. *)
Definition str_date (d : date) : string :=
  zpad 4 (d_year d) +:+ "-" +:+ zpad 2 (d_month d) +:+ "-" +:+ zpad 2 (d_day d).

(** *** [str] methods *)

Fixpoint string_drop (n : nat) (s : string) : string :=
  match n, s with
  | O, _ => s
  | S n', String _ r => string_drop n' r
  | S _, EmptyString => EmptyString
  end.


(** [s.rfind(c)]: the index of the last [c] in [s], or [-1]. *)
Fixpoint rfind_from (c : ascii) (s : string) (i last : Z) : Z :=
  match s with
  | EmptyString => last
  | String a r => rfind_from c r (i + 1) (if Ascii.eqb a c then i else last)
  end.

Definition rfind (c : ascii) (s : string) : Z := rfind_from c s 0 (-1).

(** The UTF-8 encodings of the characters [str.isspace] accepts:
    U+0009..U+000D, U+001C..U+0020, U+0085, U+00A0, U+1680,
    U+2000..U+200A, U+2028, U+2029, U+202F, U+205F, U+3000. *)
Definition whitespace : list string :=
  map string_of_list_byte
    [ [x09]; [x0a]; [x0b]; [x0c]; [x0d]; [x1c]; [x1d]; [x1e]; [x1f]; [x20];
      [xc2; x85]; [xc2; xa0]; [xe1; x9a; x80];
      [xe2; x80; x80]; [xe2; x80; x81]; [xe2; x80; x82]; [xe2; x80; x83];
      [xe2; x80; x84]; [xe2; x80; x85]; [xe2; x80; x86]; [xe2; x80; x87];
      [xe2; x80; x88]; [xe2; x80; x89]; [xe2; x80; x8a];
      [xe2; x80; xa8]; [xe2; x80; xa9]; [xe2; x80; xaf]; [xe2; x81; x9f];
      [xe3; x80; x80] ].

(** Removes the members of [ws] from the front of [s], as long as one is
    there; every member is at least one byte, so [fuel = length s] is
    enough. *)
Fixpoint lstrip_go (ws : list string) (fuel : nat) (s : string) : string :=
  match fuel with
  | O => s
  | S fuel' =>
      match List.find (fun w => String.prefix w s) ws with
      | Some w => lstrip_go ws fuel' (string_drop (String.length w) s)
      | None => s
      end
  end.

Definition lstrip (s : string) : string :=
  lstrip_go whitespace (String.length s) s.

Definition rstrip (s : string) : string :=
  String.rev (lstrip_go (map String.rev whitespace) (String.length s) (String.rev s)).

(** [s.strip()] *)
Definition strip (s : string) : string := rstrip (lstrip s).

(** *** Truth value, [len], [dict] access *)

(** The number of characters of a text held as UTF-8: the bytes that are not
    continuation bytes [10xxxxxx]. *)
Fixpoint str_len (s : string) : nat :=
  match s with
  | EmptyString => 0
  | String c r =>
      let n := N_of_ascii c in
      (if (128 <=? n)%N && (n <? 192)%N then 0 else 1) + str_len r
  end.

(** [bool(v)] *)
Definition truthy (v : pyval) : bool :=
  match v with
  | PNone => false
  | PBool b => b
  | PInt z => negb (z =? 0)%Z
  | PFloat r => negb (String.eqb r "0.0" || String.eqb r "-0.0")
  | PStr s => negb (String.eqb s "")
  | PList l => match l with [] => false | _ => true end
  | PDict d => match d with [] => false | _ => true end
  end.

(** [len(v)] *)
Definition py_len (v : pyval) : exn + nat :=
  match v with
  | PStr s => inr (str_len s)
  | PList l => inr (length l)
  | PDict d => inr (length d)
  | _ => inl TypeError
  end.

(** [d.get(k)] on the items of a [dict]. *)
Fixpoint dict_get (k : string) (d : list (string * pyval)) : option pyval :=
  match d with
  | [] => None
  | (k', v) :: r => if String.eqb k k' then Some v else dict_get k r
  end.

Definition dict_keys (d : list (string * pyval)) : list string := map fst d.

(** *** [pathlib] *)

(** The components of a path given as text, before clean-up. *)
Fixpoint parts_go (s : string) (cur : string) : list string :=
  match s with
  | EmptyString => [cur]
  | String c r =>
      if Ascii.eqb c "/" then cur :: parts_go r ""
      else parts_go r (cur +:+ String c "")
  end.

(** [Path(s).name]: the last component, empty and ["."] components
    dropped. *)
Definition path_name (s : string) : string :=
  List.last
    (List.filter (fun p => negb (String.eqb p "" || String.eqb p ".")) (parts_go s ""))
    "".

(** [Path(s).suffix]: from the last dot of the name on, when that dot is
    neither its first nor its last character. *)
Definition suffix (s : string) : string :=
  let name := path_name s in
  let i := rfind "." name in
  if (0 <? i)%Z && (i <? Z.of_nat (String.length name) - 1)%Z
  then string_drop (Z.to_nat i) name
  else "".

(** ** The libraries behind the script *)

(** The [json] module, as the script calls it. *)
Class JsonModule : Type := {
  (** [json.dumps(v, ensure_ascii=False, indent=2)] *)
  dumps : pyval -> string;
  (** [json.loads(s)] *)
  loads : string -> exn + pyval
}.


(** A segment yielded by faster-whisper: [start], [end] (floats) and
    [text]. *)
Record segment : Type := Segment {
  seg_start : string; seg_end : string; seg_text : string
}.

(** The script schemes of [sanscript] the script names. *)
Inductive scheme : Type := DEVANAGARI | BENGALI | TAMIL | TELUGU | ITRANS.

(** An iterator that can be walked once, as the generator of segments that
    [model.transcribe] returns: walking it yields what is left and leaves
    nothing. *)
Definition iterate {A} (g : list A) : list A * list A := (g, []).

(** ** What one execution of the script receives *)


(** The uploaded file: [audio_file.name] and [audio_file.getbuffer()]. *)
Record upload : Type := Upload { name : string; buffer : list byte }.

(** The values the widgets return and the clock readings of one execution.
    A text widget holds [None] while the operator has left it alone and
    returns its [value=] argument then. *)
Record inputs : Type := Inputs {
  audio_file : option upload;        (* st.file_uploader *)
  record_clicked : bool;             (* "Record from microphone" *)
  model_choice : string;             (* st.selectbox: small, base, tiny *)
  show_clicked : bool;               (* "Show saved entries" *)
  process_clicked : bool;            (* "Process audio" *)
  utcnow_upload : datetime;          (* datetime.utcnow() of line 260 *)
  transcript_box : option string;    (* "Transcript (...)" *)
  language_box : option string;      (* "Detected Language (ISO code)" *)
  translit_box : option string;      (* "Romanized transliteration" *)
  translation_box : option string;   (* "Quick English translation" *)
  title_box : option string;
  performer_box : option string;
  location_box : option string;
  context_box : option string;
  utcnow_form : datetime;            (* datetime.utcnow() of line 293 *)
  date_box : option date;            (* "Date of recording" *)
  consent_box : bool;                (* the consent checkbox *)
  submitted_clicked : bool;          (* "Save entry" *)
  export_clicked : bool;             (* "Export all as JSON" *)
  csv_clicked : bool                 (* "Download example CSV" *)
}.

(** The value a widget returns given its [value=] argument. *)
Definition widget {A} (edit : option A) (value : A) : A := default value edit.

(** What [transcribe_with_whisper] returns: a dict with the keys
    [transcript], [segments], [language], and [error] only when the model
    is missing ([error = None] stands for: no such key). *)
Record asr_result : Type := AsrResult {
  transcript : string;
  segments : list pyval;
  language : option string;
  error : option string
}.

Definition saved_msg : string :=
  "✅ Saved! You can export entries from the 'Export' panel.".
Definition consent_required_msg : string :=
  "Consent is required to save entries.".

(** ** The script *)

Section App.

Context `{JsonModule}.

(** [BASE_DIR = Path(__file__).resolve().parent] *)
Variable BASE_DIR : path.

(** Whether the two optional imports at the top of the script succeeded. *)
Variable WHISPER_AVAILABLE : bool.
Variable TRANSLIT_AVAILABLE : bool.

(** [WhisperModel(model_size, device="cpu", compute_type="int8")
    .transcribe(audio_path, beam_size=5)]: the segments and
    [info.language], or an exception of the library. *)
Variable model_transcribe :
  string -> string -> world -> exn + (list segment * string).

(** [transliterate(text, src, dst)] of indic-transliteration. *)
Variable transliterate : string -> scheme -> scheme -> string.

Definition UPLOAD_DIR : path := path_div BASE_DIR "uploads".
Definition DB_FILE : path := path_div BASE_DIR "data.json".
Definition EXPORT_FILE : path := path_div BASE_DIR "export.json".

(** *** Helpers *)

Definition load_model (model_size : string) : M (option string) :=
  if negb WHISPER_AVAILABLE then ret None
  else
    w <- get_world ;;
    match MODEL w with
    | None =>
        assign_MODEL (Some model_size) ;;;
        ret (Some model_size)
    | Some m => ret (Some m)
    end.

Definition segment_dict (s : segment) : pyval :=
  PDict [("start", PFloat (seg_start s)); ("end", PFloat (seg_end s));
         ("text", PStr (seg_text s))].

Definition transcribe_with_whisper (audio_path model_size : string)
  : M asr_result :=
  model <- load_model model_size ;;
  match model with
  | None =>
      ret (AsrResult "" [] None (Some "faster-whisper not available"))
  | Some m =>
      w <- get_world ;;
      r <- lift (model_transcribe m audio_path w) ;;
      let '(segs, info_language) := r in
      let '(first_walk, segs) := iterate segs in
      let transcript :=
        String.concat " " (map (fun s => strip (seg_text s)) first_walk) in
      let '(second_walk, _) := iterate segs in
      ret (AsrResult transcript (map segment_dict second_walk)
                     (Some info_language) None)
  end.

Definition lang_to_scheme : list (string * scheme) :=
  [("hi", DEVANAGARI); ("mr", DEVANAGARI); ("bn", BENGALI);
   ("ta", TAMIL); ("te", TELUGU)].

Fixpoint scheme_get (k : string) (d : list (string * scheme)) (dflt : scheme)
  : scheme :=
  match d with
  | [] => dflt
  | (k', v) :: r => if String.eqb k k' then v else scheme_get k r dflt
  end.

Definition romanize (text lang_code : string) : string :=
  if negb TRANSLIT_AVAILABLE then ""
  else
    let src := scheme_get lang_code lang_to_scheme DEVANAGARI in
    transliterate text src ITRANS.

Definition load_db : M pyval :=
  e <- path_exists DB_FILE ;;
  if e then s <- read_text DB_FILE ;; lift (loads s)
  else ret (PList []).

(** [db.append(x)]: only a list has the method. *)
Definition list_append (db x : pyval) : M pyval :=
  match db with
  | PList l => ret (PList (l ++ [x]))
  | _ => raise AttributeError
  end.

Definition save_entry (entry : pyval) : M unit :=
  db <- load_db ;;
  db <- list_append db entry ;;
  write_text DB_FILE (dumps db).

(** *** The intake pipeline: lines 256-316, run when a file is uploaded
    and "Process audio" is pressed *)

(** Lines 259-264: the uploaded bytes go to
    [UPLOAD_DIR / (ts + suffix)]. *)
Definition saved_path_of (ts : string) (up : upload) : path :=
  path_div UPLOAD_DIR (ts +:+ suffix (name up)).

Definition save_audio (now : datetime) (up : upload) : M (string * path) :=
  let ts := strftime_id now in
  let saved_path := saved_path_of ts up in
  write_bytes saved_path (buffer up) ;;;
  show (st_success ("✅ Saved to " +:+ str_path saved_path)) ;;;
  ret (ts, saved_path).

(** Lines 279-282. *)
Definition detected_lang_of (inp : inputs) (asr : asr_result) : string :=
  match language asr with
  | Some l => if negb (String.eqb l "") then l
              else widget (language_box inp) "hi"
  | None => widget (language_box inp) "hi"
  end.

Definition transliteration_of (transcript detected_lang : string) : string :=
  if negb (String.eqb (strip transcript) "")
  then (if TRANSLIT_AVAILABLE then romanize transcript detected_lang else "")
  else "".

(** Lines 301-314. *)
Definition make_entry (ts title performer location context : string)
    (date_of_recording : date) (saved_path : path)
    (transcript translit translation detected_lang : string) : pyval :=
  PDict [("id", PStr ts);
         ("title", PStr title);
         ("performer", PStr performer);
         ("location", PStr location);
         ("context", PStr context);
         ("date_of_recording", PStr (str_date date_of_recording));
         ("uploaded_at", PStr ts);
         ("audio_path", PStr (str_path saved_path));
         ("transcript", PStr transcript);
         ("transliteration", PStr translit);
         ("translation", PStr translation);
         ("detected_language", PStr detected_lang)].

(** The entry an execution with inputs [inp] builds once the audio is at
    [saved_path] and ASR has answered [asr]. *)
Definition entry_of (inp : inputs) (ts : string) (saved_path : path)
    (asr : asr_result) : pyval :=
  let transcript :=
    match error asr with
    | Some _ => widget (transcript_box inp) ""
    | None => widget (transcript_box inp) (transcript asr)
    end in
  let detected_lang := detected_lang_of inp asr in
  let transliteration := transliteration_of transcript detected_lang in
  make_entry ts (widget (title_box inp) "") (widget (performer_box inp) "")
    (widget (location_box inp) "") (widget (context_box inp) "")
    (widget (date_box inp) (date_of (utcnow_form inp))) saved_path
    transcript (widget (translit_box inp) transliteration)
    (widget (translation_box inp) "") detected_lang.

Definition intake (inp : inputs) (up : upload) : M unit :=
  r <- save_audio (utcnow_upload inp) up ;;
  let '(ts, saved_path) := r in
  asr_result <- transcribe_with_whisper (str_path saved_path) (model_choice inp) ;;
  match error asr_result with
  | Some err =>
      show (st_error ("❌ ASR unavailable: " +:+ err)) ;;;
      show (st_info "Please paste transcript manually or install faster-whisper.")
  | None => ret tt
  end ;;;
  (* the form "meta" *)
  when (submitted_clicked inp)
    (if negb (consent_box inp)
     then show (st_error consent_required_msg)
     else
       save_entry (entry_of inp ts saved_path asr_result) ;;;
       show (st_success saved_msg)).

(** *** The export panel: lines 321-325 *)
Definition export_all : M unit :=
  db <- load_db ;;
  let out := EXPORT_FILE in
  write_text out (dumps db) ;;;
  n <- lift (py_len db) ;;
  show (sidebar_success
          ("✅ Written " +:+ pretty n +:+ " entries to " +:+ str_path out)).

(** *** One execution of the whole script *)
Definition script (inp : inputs) : M unit :=
  (* line 39 *)
  mkdir_p UPLOAD_DIR ;;;
  (* line 41 *)
  assign_MODEL None ;;;
  (* lines 232-241 *)
  when (record_clicked inp)
    (show (st_info "Browser recording is experimental — try uploading for now.")) ;;;
  show (st_info "If <code>faster-whisper</code> isn't installed, transcription will be disabled and you'll be asked to paste text manually.") ;;;
  (* lines 243-250 *)
  when (show_clicked inp)
    (db <- load_db ;;
     if truthy db then show (st_json db)
     else show (st_info "No entries saved yet.")) ;;;
  (* lines 254-316 *)
  match audio_file inp with
  | Some up => when (process_clicked inp) (intake inp up)
  | None => ret tt
  end ;;;
  (* lines 319-328 *)
  when (export_clicked inp) export_all ;;;
  when (csv_clicked inp)
    (show (sidebar_info "Use the exported JSON for now. CSV export coming soon.")).

End App.

(** ** A reference [json] codec

    An executable instance of [JsonModule]: the text [json.dumps] produces
    with [ensure_ascii=False, indent=2], and a reader for JSON text.  It
    covers [None], booleans, integers, strings, lists and dicts; number
    literals with a fraction or an exponent, which Python reads as floats,
    are outside it and refused. *)
Module RefJson.

Definition dquote : ascii := "034"%char.
Definition backslash : ascii := "092"%char.
Definition newline : string := String "010"%char "".

Definition hex_digit (n : N) : ascii :=
  nth (N.to_nat n) (list_ascii_of_string "0123456789abcdef") "0"%char.

(** [ESCAPE_DCT] of [json.encoder]: the quote, the backslash and the control
    characters. *)
Definition escape_char (c : ascii) : string :=
  let n := N_of_ascii c in
  if Ascii.eqb c dquote then String backslash (String dquote "")
  else if Ascii.eqb c backslash then String backslash (String backslash "")
  else if (n =? 10)%N then String backslash "n"
  else if (n =? 13)%N then String backslash "r"
  else if (n =? 9)%N then String backslash "t"
  else if (n =? 8)%N then String backslash "b"
  else if (n =? 12)%N then String backslash "f"
  else if (n <? 32)%N
       then String backslash
              ("u00" +:+ String (hex_digit (n / 16)) (String (hex_digit (n mod 16)) ""))
       else String c "".

Fixpoint escape (s : string) : string :=
  match s with
  | EmptyString => ""
  | String c r => escape_char c +:+ escape r
  end.

Definition encode_str (s : string) : string :=
  String dquote (escape s +:+ String dquote "").

Definition indent_of (level : nat) : string :=
  String.concat "" (replicate level "  ").

Definition encode_float (r : string) : string :=
  if String.eqb r "nan" then "NaN"
  else if String.eqb r "inf" then "Infinity"
  else if String.eqb r "-inf" then "-Infinity"
  else r.

(** The encoder at nesting depth [level]. *)
Fixpoint encode (level : nat) (v : pyval) : string :=
  let nl := newline +:+ indent_of (S level) in
  match v with
  | PNone => "null"
  | PBool true => "true"
  | PBool false => "false"
  | PInt z => pretty z
  | PFloat r => encode_float r
  | PStr s => encode_str s
  | PList [] => "[]"
  | PList l =>
      "[" +:+ nl +:+ String.concat ("," +:+ nl) (map (encode (S level)) l)
      +:+ newline +:+ indent_of level +:+ "]"
  | PDict [] => "{}"
  | PDict d =>
      "{" +:+ nl +:+
      String.concat ("," +:+ nl)
        (map (fun kv => encode_str (fst kv) +:+ ": " +:+ encode (S level) (snd kv)) d)
      +:+ newline +:+ indent_of level +:+ "}"
  end.

(** *** Reading *)

Definition is_ws (c : ascii) : bool :=
  Ascii.eqb c " " || Ascii.eqb c "009" || Ascii.eqb c "010" || Ascii.eqb c "013".

Fixpoint skip_ws (s : string) : string :=
  match s with
  | String c r => if is_ws c then skip_ws r else s
  | EmptyString => s
  end.

Definition hex_val (c : ascii) : option N :=
  let n := N_of_ascii c in
  if (48 <=? n)%N && (n <=? 57)%N then Some (n - 48)%N
  else if (97 <=? n)%N && (n <=? 102)%N then Some (n - 87)%N
  else if (65 <=? n)%N && (n <=? 70)%N then Some (n - 55)%N
  else None.

(** Four hexadecimal digits at the front of [s]. *)
Definition hex4 (s : string) : option (N * string) :=
  match s with
  | String a (String b (String c (String d r))) =>
      match hex_val a, hex_val b, hex_val c, hex_val d with
      | Some x, Some y, Some z, Some t =>
          Some ((((x * 16 + y) * 16 + z) * 16 + t)%N, r)
      | _, _, _, _ => None
      end
  | _ => None
  end.

(** The UTF-8 encoding of a code point. *)
Definition utf8 (n : N) : string :=
  let b := ascii_of_N in
  (if n <? 128 then String (b n) ""
   else if n <? 2048
        then String (b (192 + n / 64)) (String (b (128 + n mod 64)) "")
   else if n <? 65536
        then String (b (224 + n / 4096))
               (String (b (128 + (n / 64) mod 64)) (String (b (128 + n mod 64)) ""))
   else String (b (240 + n / 262144))
          (String (b (128 + (n / 4096) mod 64))
             (String (b (128 + (n / 64) mod 64)) (String (b (128 + n mod 64)) ""))))%N.

(** The characters of a string literal after its opening quote, up to the
    closing quote. *)
Fixpoint read_chars (fuel : nat) (s : string) (acc : string)
  : option (string * string) :=
  match fuel with
  | O => None
  | S fuel' =>
      match s with
      | EmptyString => None
      | String c r =>
          if Ascii.eqb c dquote then Some (acc, r)
          else if Ascii.eqb c backslash then
            match r with
            | EmptyString => None
            | String e r' =>
                let simple := fun (x : string) => read_chars fuel' r' (acc +:+ x) in
                if Ascii.eqb e dquote then simple (String dquote "")
                else if Ascii.eqb e backslash then simple (String backslash "")
                else if Ascii.eqb e "/" then simple "/"
                else if Ascii.eqb e "b" then simple (String "008" "")
                else if Ascii.eqb e "f" then simple (String "012" "")
                else if Ascii.eqb e "n" then simple (String "010" "")
                else if Ascii.eqb e "r" then simple (String "013" "")
                else if Ascii.eqb e "t" then simple (String "009" "")
                else if Ascii.eqb e "u" then
                  match hex4 r' with
                  | None => None
                  | Some (hi, r2) =>
                      let single := read_chars fuel' r2 (acc +:+ utf8 hi) in
                      if (55296 <=? hi)%N && (hi <=? 56319)%N then
                        match r2 with
                        | String b1 (String u1 r3) =>
                            if Ascii.eqb b1 backslash && Ascii.eqb u1 "u" then
                              match hex4 r3 with
                              | Some (lo, r4) =>
                                  if (56320 <=? lo)%N && (lo <=? 57343)%N
                                  then read_chars fuel' r4
                                         (acc +:+ utf8 (65536 + (hi - 55296) * 1024 + (lo - 56320)))
                                  else single
                              | None => single
                              end
                            else single
                        | _ => single
                        end
                      else single
                  end
                else None
            end
          else if (N_of_ascii c <? 32)%N then None
          else read_chars fuel' r (acc +:+ String c "")
      end
  end.

Definition read_string (s : string) : option (string * string) :=
  read_chars (String.length s) s "".

Definition is_digit (c : ascii) : bool :=
  let n := N_of_ascii c in (48 <=? n)%N && (n <=? 57)%N.

Fixpoint read_digits (s : string) (acc : N) : N * string :=
  match s with
  | String c r =>
      if is_digit c then read_digits r (acc * 10 + (N_of_ascii c - 48))%N
      else (acc, s)
  | EmptyString => (acc, s)
  end.

(** An integer literal: an optional minus sign, then [0] or a digit string
    without leading zero; a fraction or an exponent after it is refused. *)
Definition read_int (s : string) : option (Z * string) :=
  let '(neg, s1) :=
    match s with
    | String c r => if Ascii.eqb c "-" then (true, r) else (false, s)
    | EmptyString => (false, s)
    end in
  match s1 with
  | String c r =>
      if is_digit c then
        let '(n, rest) :=
          if Ascii.eqb c "0" then (0%N, r) else read_digits s1 0%N in
        match rest with
        | String d _ =>
            if Ascii.eqb d "." || Ascii.eqb d "e" || Ascii.eqb d "E" then None
            else Some (if neg then (- Z.of_N n)%Z else Z.of_N n, rest)
        | EmptyString => Some (if neg then (- Z.of_N n)%Z else Z.of_N n, rest)
        end
      else None
  | EmptyString => None
  end.

(** [d[k] = v] on the items of a dict: a key already there keeps its
    place. *)
Fixpoint dict_set (k : string) (v : pyval) (d : list (string * pyval))
  : list (string * pyval) :=
  match d with
  | [] => [(k, v)]
  | (k', v') :: r =>
      if String.eqb k k' then (k, v) :: r else (k', v') :: dict_set k v r
  end.

Definition strip_prefix (p s : string) : option string :=
  if String.prefix p s then Some (string_drop (String.length p) s) else None.

Fixpoint read_value (fuel : nat) (s : string) : option (pyval * string) :=
  match fuel with
  | O => None
  | S fuel' =>
      match s with
      | EmptyString => None
      | String c r =>
          if Ascii.eqb c dquote then
            match read_string r with
            | Some (t, rest) => Some (PStr t, rest)
            | None => None
            end
          else if Ascii.eqb c "[" then
            match skip_ws r with
            | String c' r' =>
                if Ascii.eqb c' "]" then Some (PList [], r')
                else read_items fuel' (String c' r') []
            | EmptyString => None
            end
          else if Ascii.eqb c "{" then
            match skip_ws r with
            | String c' r' =>
                if Ascii.eqb c' "}" then Some (PDict [], r')
                else read_members fuel' (String c' r') []
            | EmptyString => None
            end
          else if String.prefix "null" s then Some (PNone, string_drop 4 s)
          else if String.prefix "true" s then Some (PBool true, string_drop 4 s)
          else if String.prefix "false" s then Some (PBool false, string_drop 5 s)
          else match read_int s with
               | Some (z, rest) => Some (PInt z, rest)
               | None => None
               end
      end
  end
with read_items (fuel : nat) (s : string) (acc : list pyval)
  : option (pyval * string) :=
  match fuel with
  | O => None
  | S fuel' =>
      match read_value fuel' s with
      | Some (v, rest) =>
          match skip_ws rest with
          | String c r =>
              if Ascii.eqb c "," then read_items fuel' (skip_ws r) (acc ++ [v])
              else if Ascii.eqb c "]" then Some (PList (acc ++ [v]), r)
              else None
          | EmptyString => None
          end
      | None => None
      end
  end
with read_members (fuel : nat) (s : string) (acc : list (string * pyval))
  : option (pyval * string) :=
  match fuel with
  | O => None
  | S fuel' =>
      match s with
      | String q r =>
          if Ascii.eqb q dquote then
            match read_string r with
            | Some (k, rest) =>
                match skip_ws rest with
                | String c r1 =>
                    if Ascii.eqb c ":" then
                      match read_value fuel' (skip_ws r1) with
                      | Some (v, rest') =>
                          match skip_ws rest' with
                          | String c' r2 =>
                              if Ascii.eqb c' ","
                              then read_members fuel' (skip_ws r2) (dict_set k v acc)
                              else if Ascii.eqb c' "}"
                                   then Some (PDict (dict_set k v acc), r2)
                                   else None
                          | EmptyString => None
                          end
                      | None => None
                      end
                    else None
                | EmptyString => None
                end
            | None => None
            end
          else None
      | EmptyString => None
      end
  end.

(** [json.loads]: one value, white space around it, nothing else. *)
Definition decode (s : string) : exn + pyval :=
  match read_value (2 * String.length s + 2) (skip_ws s) with
  | Some (v, rest) =>
      match skip_ws rest with
      | EmptyString => inr v
      | _ => inl JSONDecodeError
      end
  | None => inl JSONDecodeError
  end.

#[global] Instance json : JsonModule := {| dumps := encode 0; loads := decode |}.

End RefJson.

(** ** The persisted collection *)

(** What [load_db] reads in world [w]: the collection, or the exception. *)
Definition store_of `{JsonModule} (BASE_DIR : path) (w : world) : exn + pyval :=
  result_of (load_db BASE_DIR w).

(** Path [p] is the same in [w'] as in [w]: same content if it is a file,
    and a directory in both or in neither. *)
Definition untouched (p : path) (w w' : world) : Prop :=
  files w' !! p = files w !! p /\ (p ∈ dirs w' <-> p ∈ dirs w).

(** The statement [m] leaves path [p] alone, however it ends. *)
Definition keeps {A} (p : path) (m : M A) : Prop :=
  forall w, untouched p w (world_of (m w)).

(** The execution reached the state [Saved] of the pipeline: it showed the
    message that follows [save_entry]. *)
Definition reached_Saved (shown : list ui) : Prop :=
  In (st_success saved_msg) shown.

(** ** Sample data

    Concrete worlds and inputs on which the properties below are exercised,
    with the reference codec as [json]. *)
Module Sample.

Definition base : path := ["srv"; "lokgeet"; "app"].

(** The application directory right after installation: no upload
    directory, no backing file. *)
Definition fresh : world := World ∅ {[base]} None.

(** A transliteration provider that leaves every character in place, which
    is what a Devanagari-to-ITRANS run does to white space and to Latin
    letters. *)
Definition passthrough (text : string) (src dst : scheme) : string := text.

(** A model that is never reached when faster-whisper is missing. *)
Definition no_model (model_size audio_path : string) (w : world)
  : exn + (list segment * string) :=
  inl (ProviderError "no model").

Definition song1 : upload := Upload "song1.wav" [x52; x49; x46; x46; x00; x01].

Definition clock : datetime := Datetime 2024 3 9 7 5 1 2500.

(** Scenario 1: [song1.wav] is uploaded and processed, the operator types
    the transcript ["sample lyrics"], ticks consent and saves. *)
Definition scenario1 : inputs :=
  {| audio_file := Some song1;
     record_clicked := false;
     model_choice := "small";
     show_clicked := false;
     process_clicked := true;
     utcnow_upload := clock;
     transcript_box := Some "sample lyrics";
     language_box := None;
     translit_box := None;
     translation_box := None;
     title_box := Some "Lori";
     performer_box := None;
     location_box := None;
     context_box := Some "lullaby";
     utcnow_form := clock;
     date_box := None;
     consent_box := true;
     submitted_clicked := true;
     export_clicked := false;
     csv_clicked := false |}.

(** Scenario 3: the same submission with the consent box left empty, and
    the export button pressed in the same execution. *)
Definition declined : inputs :=
  {| audio_file := Some song1;
     record_clicked := false;
     model_choice := "small";
     show_clicked := true;
     process_clicked := true;
     utcnow_upload := clock;
     transcript_box := Some "sample lyrics";
     language_box := None;
     translit_box := None;
     translation_box := None;
     title_box := Some "Lori";
     performer_box := None;
     location_box := None;
     context_box := Some "lullaby";
     utcnow_form := clock;
     date_box := None;
     consent_box := false;
     submitted_clicked := true;
     export_clicked := true;
     csv_clicked := false |}.

Definition entry_n (ts title : string) : pyval :=
  make_entry ts title "" "" "" (Date 2024 3 9)
    (path_div (UPLOAD_DIR base) (ts +:+ ".wav")) "la la" "" "" "hi".

Definition three_entries : list pyval :=
  [entry_n "20240309T070501Z" "one"; entry_n "20240309T070502Z" "two";
   entry_n "20240309T070503Z" "three"].

Definition fourth : pyval := entry_n "20240309T070504Z" "four".

(** A world whose backing file holds [l], as [save_entry] writes it. *)
Definition holding (l : list pyval) : world :=
  World {[DB_FILE base := list_byte_of_string (RefJson.encode 0 (PList l))]}
        {[base]} None.

(** A world whose backing file is not JSON. *)
Definition corrupt : world :=
  World {[DB_FILE base := list_byte_of_string "{ not json"]} {[base]} None.

End Sample.

(** ** What reaching [Saved] means *)

(** The statement [m] never shows the message of the state [Saved]. *)
Definition quiet {A} (m : M A) : Prop :=
  forall w, ~ reached_Saved (shown_of (m w)).

(** The answer of [transcribe_with_whisper] when faster-whisper is missing. *)
Definition asr_unavailable : asr_result :=
  AsrResult "" [] None (Some "faster-whisper not available").

Section Specification.

Context `{JsonModule}.
Variable BASE_DIR : path.
Variable WHISPER_AVAILABLE : bool.
Variable TRANSLIT_AVAILABLE : bool.
Variable transliterate : string -> scheme -> scheme -> string.

(** What holds once an execution has reached [Saved]: the form was submitted
    with consent; the backing store held a list [C] in the world [w0] the
    execution started in and holds, in the world [w'] it ended in, the
    serialisation of [C] followed by the new entry; the uploaded bytes are
    the file at [saved_path]. *)
Definition saved_facts (inp : inputs) (up : upload) (w0 w' : world) : Prop :=
  let ts := strftime_id (utcnow_upload inp) in
  let saved_path := saved_path_of BASE_DIR ts up in
  submitted_clicked inp = true /\ consent_box inp = true /\
  exists C asr,
    store_of BASE_DIR w0 = inr (PList C) /\
    files w' !! DB_FILE BASE_DIR =
      Some (list_byte_of_string
              (dumps (PList (C ++ [entry_of TRANSLIT_AVAILABLE transliterate
                                     inp ts saved_path asr])))) /\
    (DB_FILE BASE_DIR ∉ dirs w') /\
    files w' !! saved_path = Some (buffer up) /\
    (saved_path ∉ dirs w') /\
    (WHISPER_AVAILABLE = false -> asr = asr_unavailable).

(** The statement [m], run in [w], reaches [Saved] only through the
    pipeline for an uploaded file, with [saved_facts]. *)
Definition saves_through_pipeline (inp : inputs) (m : M unit) (w : world) : Prop :=
  reached_Saved (shown_of (m w)) ->
  exists up,
    audio_file inp = Some up /\ process_clicked inp = true /\
    saved_facts inp up w (world_of (m w)).

End Specification.

(** * Properties *)

(** ** The monad *)

(** ** The built-ins on concrete inputs *)

Example strftime_id_example :
  strftime_id (Datetime 2024 3 9 7 5 1 2500) = "20240309T070501Z".
Proof. reflexivity. Qed.

Example str_date_example : str_date (Date 2024 3 9) = "2024-03-09".
Proof. reflexivity. Qed.

Example suffix_examples :
  suffix "song1.wav" = ".wav" /\ suffix "a.tar.gz" = ".gz" /\
  suffix ".hidden" = "" /\ suffix "noext" = "" /\ suffix "trailing." = "" /\
  suffix "dir.d/plain" = "" /\ suffix "dir/song2.mp3" = ".mp3".
Proof. repeat split; reflexivity. Qed.

Example strip_examples :
  strip "  sample lyrics  " = "sample lyrics" /\ strip "" = "" /\
  strip "   " = "" /\
  strip (string_of_list_byte [xc2; xa0; x20; x61; xe3; x80; x80; x0a]) = "a".
Proof. repeat split; vm_compute; reflexivity. Qed.

Example str_path_example :
  str_path (path_div (path_div ["srv"; "app"] "uploads") "x.wav")
  = "/srv/app/uploads/x.wav".
Proof. reflexivity. Qed.

(** The reference codec on a nested value with characters that need an
    escape, and on texts that are not JSON. *)
Example ref_json_examples :
  let v := PList [PDict [("k", PStr (String RefJson.dquote (String RefJson.backslash
                                       (String "010"%char "é"))));
                         ("n", PInt (-12)); ("t", PBool true); ("z", PNone)];
                  PList []; PDict []] in
  RefJson.decode (RefJson.encode 0 v) = inr v /\
  RefJson.encode 0 (PList [PInt 1; PList []]) =
    "[" +:+ RefJson.newline +:+ "  1," +:+ RefJson.newline +:+ "  []"
    +:+ RefJson.newline +:+ "]" /\
  RefJson.decode "[1,]" = inl JSONDecodeError /\
  RefJson.decode "" = inl JSONDecodeError /\
  RefJson.decode "[] x" = inl JSONDecodeError /\
  RefJson.decode " [ 1 , 2 ] " = inr (PList [PInt 1; PInt 2]).
Proof. repeat split; vm_compute; reflexivity. Qed.

(** ** Paths *)

Lemma parent_path_div p n : parent (path_div p n) = p.
Proof. apply removelast_last. Qed.

Lemma path_div_inj p n n' : path_div p n = path_div p n' -> n = n'.
Proof. unfold path_div. intros E. apply app_inv_head in E. congruence. Qed.

Lemma path_div_neq_self p n : path_div p n <> p.
Proof.
  unfold path_div. intros E. apply (f_equal length) in E.
  rewrite length_app in E. simpl in E. lia.
Qed.

Lemma path_div2_neq p a b c : path_div (path_div p a) b <> path_div p c.
Proof.
  unfold path_div. intros E. apply (f_equal length) in E.
  rewrite !length_app in E. simpl in E. lia.
Qed.


(** ** The frame of each statement *)

Lemma untouched_refl p w : untouched p w w.
Proof. by split. Qed.

Lemma untouched_trans p w1 w2 w3 :
  untouched p w1 w2 -> untouched p w2 w3 -> untouched p w1 w3.
Proof. intros [E1 D1] [E2 D2]. split; [congruence | tauto]. Qed.

Lemma keeps_ret {A} p (a : A) : keeps p (ret a).
Proof. intros w. apply untouched_refl. Qed.

Lemma keeps_bind {A B} p (m : M A) (k : A -> M B) :
  keeps p m -> (forall a, keeps p (k a)) -> keeps p (bind m k).
Proof.
  intros Hm Hk w. specialize (Hm w). unfold bind, world_of in *.
  destruct (m w) as [[[e|a] w1] o1]; simpl in *; [done|].
  specialize (Hk a w1). unfold world_of in Hk.
  destruct (k a w1) as [[r w2] o2]; simpl in *.
  by eapply untouched_trans.
Qed.

Lemma keeps_show p u : keeps p (show u).
Proof. intros w. apply untouched_refl. Qed.

Lemma keeps_lift {A} p (r : exn + A) : keeps p (lift r).
Proof. intros w. apply untouched_refl. Qed.

Lemma keeps_raise {A} p e : keeps p (@raise A e).
Proof. intros w. apply untouched_refl. Qed.

Lemma keeps_get_world p : keeps p get_world.
Proof. intros w. apply untouched_refl. Qed.

Lemma keeps_assign_MODEL p m : keeps p (assign_MODEL m).
Proof. intros w. by split. Qed.

Lemma keeps_when p c body : keeps p body -> keeps p (when c body).
Proof. destruct c; simpl; [done|]. intros _. apply keeps_ret. Qed.

Lemma keeps_path_exists p q : keeps p (path_exists q).
Proof. intros w. apply untouched_refl. Qed.

Lemma keeps_read_bytes p q : keeps p (read_bytes q).
Proof.
  intros w. unfold read_bytes, world_of.
  destruct (bool_decide (q ∈ dirs w)); simpl; [apply untouched_refl|].
  destruct (files w !! q); apply untouched_refl.
Qed.

Lemma keeps_read_text p q : keeps p (read_text q).
Proof.
  apply keeps_bind; [apply keeps_read_bytes|]. intros b. apply keeps_ret.
Qed.

Lemma keeps_mkdir_p p q : q <> p -> keeps p (mkdir_p q).
Proof.
  intros Hne w. unfold mkdir_p, world_of.
  destruct (files w !! q); simpl; [apply untouched_refl|].
  split; simpl; [done|]. rewrite elem_of_union, elem_of_singleton.
  split; [intros [E|E]; [by destruct Hne|done] | by right].
Qed.

Lemma keeps_write_bytes p q b : q <> p -> keeps p (write_bytes q b).
Proof.
  intros Hne w. unfold write_bytes, world_of.
  destruct (bool_decide (q ∈ dirs w)); simpl; [apply untouched_refl|].
  destruct (bool_decide (parent q ∈ dirs w)); simpl; [|apply untouched_refl].
  split; simpl; [by rewrite lookup_insert_ne|done].
Qed.


(** ** The entry store *)

Section Store.

Context `{JsonModule}.
Variable BASE_DIR : path.

Local Abbreviation DB := (DB_FILE BASE_DIR).
Local Abbreviation OUT := (EXPORT_FILE BASE_DIR).

Lemma EXPORT_FILE_neq_DB_FILE : OUT <> DB.
Proof. intros E. apply path_div_inj in E. discriminate. Qed.

Lemma UPLOAD_DIR_neq_DB_FILE : UPLOAD_DIR BASE_DIR <> DB.
Proof. intros E. apply path_div_inj in E. discriminate. Qed.

(** [load_db] spelled out: a directory in the way, a file, or nothing. *)
Lemma load_db_unfold w :
  load_db BASE_DIR w =
    if bool_decide (DB ∈ dirs w) then (inl IsADirectoryError, w, [])
    else match files w !! DB with
         | Some b => (loads (string_of_list_byte b), w, [])
         | None => (inr (PList []), w, [])
         end.
Proof.
  unfold load_db, path_exists, read_text, read_bytes, bind, ret, lift.
  destruct (bool_decide (DB ∈ dirs w)) eqn:Ed.
  - rewrite orb_true_r. cbn beta. by rewrite Ed.
  - rewrite orb_false_r. destruct (files w !! DB) as [b|] eqn:E.
    + rewrite bool_decide_eq_true_2; [|by eexists].
      cbn beta. rewrite Ed, E. by destruct (loads _).
    + rewrite bool_decide_eq_false_2; [done|]. by intros [? ?].
Qed.

(** [load_db] changes nothing and shows nothing. *)
Lemma load_db_pure w : load_db BASE_DIR w = (store_of BASE_DIR w, w, []).
Proof.
  unfold store_of. rewrite load_db_unfold.
  destruct (bool_decide (DB ∈ dirs w)); [done|].
  by destruct (files w !! DB).
Qed.





Lemma store_of_untouched w w' :
  untouched DB w w' -> store_of BASE_DIR w' = store_of BASE_DIR w.
Proof.
  intros [Ef Ed]. unfold store_of. rewrite !load_db_unfold.
  rewrite Ef, (bool_decide_ext _ _ Ed).
  destruct (bool_decide (DB ∈ dirs w)); [done|].
  by destruct (files w !! DB).
Qed.

Lemma keeps_load_db p : keeps p (load_db BASE_DIR).
Proof. intros w. rewrite load_db_pure. apply untouched_refl. Qed.

(** [save_entry], case by case on what [load_db] reads. *)
Lemma save_entry_raises entry w e :
  store_of BASE_DIR w = inl e -> save_entry BASE_DIR entry w = (inl e, w, []).
Proof. intros E. unfold save_entry, bind. by rewrite load_db_pure, E. Qed.

Lemma save_entry_not_list entry w v :
  store_of BASE_DIR w = inr v -> (forall l, v <> PList l) ->
  save_entry BASE_DIR entry w = (inl AttributeError, w, []).
Proof.
  intros E Hv. unfold save_entry, bind. rewrite load_db_pure, E.
  destruct v; try done. by destruct (Hv l).
Qed.

Lemma save_entry_list entry w C :
  store_of BASE_DIR w = inr (PList C) ->
  save_entry BASE_DIR entry w =
    write_text DB (dumps (PList (C ++ [entry]))) w.
Proof.
  intros E. unfold save_entry, bind. rewrite load_db_pure, E. simpl.
  by destruct (write_text _ _ w) as [[r w'] o].
Qed.


(** A write either happens in full or not at all. *)
Lemma write_bytes_cases p b w :
  (write_bytes p b w = (inr tt, set_files (<[p := b]> (files w)) w, [])
   /\ (p ∉ dirs w) /\ (parent p ∈ dirs w))
  \/ (exists e, write_bytes p b w = (inl e, w, [])).
Proof.
  unfold write_bytes.
  destruct (decide (p ∈ dirs w)) as [Hd|Hd].
  - right. rewrite (bool_decide_eq_true_2 _ Hd). eauto.
  - rewrite (bool_decide_eq_false_2 _ Hd).
    destruct (decide (parent p ∈ dirs w)) as [Hp|Hp].
    + left. by rewrite (bool_decide_eq_true_2 _ Hp).
    + right. rewrite (bool_decide_eq_false_2 _ Hp). eauto.
Qed.

End Store.

(** ** Laws of the entry store *)

Section StoreLaws.

Context `{JsonModule}.
Variable BASE_DIR : path.

Local Abbreviation DB := (DB_FILE BASE_DIR).
Local Abbreviation OUT := (EXPORT_FILE BASE_DIR).




Lemma keeps_export_all p : OUT <> p -> keeps p (export_all BASE_DIR).
Proof.
  intros Hne. unfold export_all.
  apply keeps_bind; [apply keeps_load_db|]. intros db.
  apply keeps_bind; [by apply keeps_write_bytes|]. intros _.
  apply keeps_bind; [apply keeps_lift|]. intros n. apply keeps_show.
Qed.

Lemma keeps_save_entry p entry : DB <> p -> keeps p (save_entry BASE_DIR entry).
Proof.
  intros Hne. unfold save_entry.
  apply keeps_bind; [apply keeps_load_db|]. intros db.
  apply keeps_bind.
  - destruct db; try apply keeps_raise. apply keeps_ret.
  - intros db'. by apply keeps_write_bytes.
Qed.

(** C10 (reading and exporting are read-only on the backing store).
    [load_db] returns the world it was given.  [export_all], however it
    ends, leaves the backing file as it was, so the collection read from it
    is the same before and after, and so is every path other than
    [export.json]. *)
Theorem load_db_export_all_read_only (w : world) :
  world_of (load_db BASE_DIR w) = w /\
  untouched DB w (world_of (export_all BASE_DIR w)) /\
  store_of BASE_DIR (world_of (export_all BASE_DIR w)) = store_of BASE_DIR w /\
  (forall p, p <> OUT -> untouched p w (world_of (export_all BASE_DIR w))).
Proof.
  split; [by rewrite load_db_pure|].
  assert (untouched DB w (world_of (export_all BASE_DIR w))) as Hu.
  { apply keeps_export_all, EXPORT_FILE_neq_DB_FILE. }
  split; [done|]. split; [by apply store_of_untouched|].
  intros p Hp. by apply keeps_export_all.
Qed.

End StoreLaws.

(** ** What a statement shows *)

Lemma bind_unfold {A B} (m : M A) (k : A -> M B) w :
  bind m k w =
    match result_of (m w) with
    | inl e => (inl e, world_of (m w), shown_of (m w))
    | inr a =>
        (result_of (k a (world_of (m w))), world_of (k a (world_of (m w))),
         shown_of (m w) ++ shown_of (k a (world_of (m w))))
    end.
Proof.
  unfold bind, result_of, world_of, shown_of.
  destruct (m w) as [[[e|a] w1] o1]; simpl; [done|].
  by destruct (k a w1) as [[r w2] o2].
Qed.

Lemma quiet_silent {A} (m : M A) : (forall w, shown_of (m w) = []) -> quiet m.
Proof. intros E w. rewrite E. intros []. Qed.

Lemma quiet_bind {A B} (m : M A) (k : A -> M B) :
  quiet m -> (forall a, quiet (k a)) -> quiet (bind m k).
Proof.
  intros Hm Hk w. rewrite bind_unfold. unfold reached_Saved.
  destruct (result_of (m w)) as [e|a] eqn:E; unfold shown_of at 1; simpl.
  - apply Hm.
  - rewrite in_app_iff.
    intros [Hin|Hin]; [by apply (Hm w)|by apply (Hk a (world_of (m w)))].
Qed.

Lemma quiet_ret {A} (a : A) : quiet (ret a).
Proof. by apply quiet_silent. Qed.

Lemma quiet_lift {A} (r : exn + A) : quiet (lift r).
Proof. by apply quiet_silent. Qed.

Lemma quiet_raise {A} e : quiet (@raise A e).
Proof. by apply quiet_silent. Qed.

Lemma quiet_assign_MODEL m : quiet (assign_MODEL m).
Proof. by apply quiet_silent. Qed.

Lemma quiet_get_world : quiet get_world.
Proof. by apply quiet_silent. Qed.

Lemma quiet_mkdir_p p : quiet (mkdir_p p).
Proof.
  apply quiet_silent. intros w. unfold mkdir_p. by destruct (files w !! p).
Qed.

Lemma quiet_write_bytes p b : quiet (write_bytes p b).
Proof.
  apply quiet_silent. intros w.
  destruct (write_bytes_cases p b w) as [[E _]|[e E]]; by rewrite E.
Qed.

Lemma quiet_show u : u <> st_success saved_msg -> quiet (show u).
Proof. intros Hu w [E|[]]. by destruct Hu. Qed.

Lemma quiet_when c body : quiet body -> quiet (when c body).
Proof. destruct c; simpl; [done|]. intros _. apply quiet_ret. Qed.

Lemma saved_to_is_not_saved x : st_success ("✅ Saved to " +:+ x) <> st_success saved_msg.
Proof. unfold saved_msg. simpl. discriminate. Qed.

(** A statement that shows nothing of [Saved] can be skipped in front of
    what follows it. *)
Lemma skip_quiet {A B} (m : M A) (k : A -> M B) w :
  quiet m ->
  reached_Saved (shown_of (bind m k w)) ->
  exists a,
    result_of (m w) = inr a /\
    reached_Saved (shown_of (k a (world_of (m w)))) /\
    world_of (bind m k w) = world_of (k a (world_of (m w))).
Proof.
  intros Hm. rewrite bind_unfold. unfold reached_Saved.
  destruct (result_of (m w)) as [e|a] eqn:E; unfold shown_of at 1, world_of at 1; simpl.
  - intros Hin. by destruct (Hm w).
  - rewrite in_app_iff. intros [Hin|Hin]; [by destruct (Hm w)|]. eauto.
Qed.

(** Statements that show nothing of [Saved] can be dropped behind what they
    follow: the message came from the first statement. *)
Lemma drop_quiet {A B} (m : M A) (k : A -> M B) w :
  (forall a, quiet (k a)) ->
  reached_Saved (shown_of (bind m k w)) ->
  reached_Saved (shown_of (m w)).
Proof.
  intros Hk. rewrite bind_unfold. unfold reached_Saved.
  destruct (result_of (m w)) as [e|a] eqn:E; unfold shown_of at 1; simpl; [done|].
  rewrite in_app_iff. intros [Hin|Hin]; [done|].
  by destruct (Hk a (world_of (m w))).
Qed.

(** What the statements after [m] keep is, at the end, as [m] left it. *)
Lemma untouched_after {A B} (m : M A) (k : A -> M B) p w :
  (forall a, keeps p (k a)) ->
  untouched p (world_of (m w)) (world_of (bind m k w)).
Proof.
  intros Hk. rewrite bind_unfold.
  destruct (result_of (m w)) as [e|a] eqn:E; unfold world_of at 2; simpl.
  - apply untouched_refl.
  - apply Hk.
Qed.

(** A sequence that returned: its first statement returned, and so did the
    rest, and what they showed is what the sequence showed. *)
Lemma bind_returned {A B} (m : M A) (k : A -> M B) w b :
  result_of (bind m k w) = inr b ->
  exists a,
    result_of (m w) = inr a /\
    result_of (k a (world_of (m w))) = inr b /\
    shown_of (bind m k w) = shown_of (m w) ++ shown_of (k a (world_of (m w))).
Proof.
  rewrite bind_unfold.
  destruct (result_of (m w)) as [e|a]; [discriminate|]. eauto.
Qed.

(** A value is a list or it is not. *)
Lemma classic_list (v : pyval) : (exists l, v = PList l) \/ (forall l, v <> PList l).
Proof. destruct v; try (right; discriminate). left. eauto. Qed.

(** ** The intake pipeline *)

Section Pipeline.

Context `{JsonModule}.
Variable BASE_DIR : path.
Variable WHISPER_AVAILABLE : bool.
Variable TRANSLIT_AVAILABLE : bool.
Variable model_transcribe : string -> string -> world -> exn + (list segment * string).
Variable transliterate : string -> scheme -> scheme -> string.

Local Abbreviation DB := (DB_FILE BASE_DIR).
Local Abbreviation OUT := (EXPORT_FILE BASE_DIR).
Local Abbreviation transcribe :=
  (transcribe_with_whisper WHISPER_AVAILABLE model_transcribe).
Local Abbreviation entry := (entry_of TRANSLIT_AVAILABLE transliterate).
Local Abbreviation pipeline :=
  (intake BASE_DIR WHISPER_AVAILABLE TRANSLIT_AVAILABLE model_transcribe transliterate).
Local Abbreviation run :=
  (script BASE_DIR WHISPER_AVAILABLE TRANSLIT_AVAILABLE model_transcribe transliterate).
Local Abbreviation facts :=
  (saved_facts BASE_DIR WHISPER_AVAILABLE TRANSLIT_AVAILABLE transliterate).
Local Abbreviation through :=
  (saves_through_pipeline BASE_DIR WHISPER_AVAILABLE TRANSLIT_AVAILABLE transliterate).

Lemma saved_path_neq_DB ts up : saved_path_of BASE_DIR ts up <> DB.
Proof. apply path_div2_neq. Qed.

Lemma saved_path_neq_OUT ts up : saved_path_of BASE_DIR ts up <> OUT.
Proof. apply path_div2_neq. Qed.

(** [transcribe_with_whisper] shows nothing and touches no file; without
    faster-whisper it returns [asr_unavailable] and changes nothing. *)
Lemma transcribe_spec audio_path model_size w :
  exists r w',
    transcribe audio_path model_size w = (r, w', []) /\
    files w' = files w /\ dirs w' = dirs w /\
    (WHISPER_AVAILABLE = false -> r = inr asr_unavailable /\ w' = w).
Proof.
  unfold transcribe_with_whisper, load_model.
  destruct WHISPER_AVAILABLE; simpl.
  - unfold bind, get_world, assign_MODEL, ret, lift. simpl.
    destruct (MODEL w) as [m|] eqn:Em; simpl.
    + destruct (model_transcribe m audio_path w) as [e|[segs lang]]; simpl;
        eexists _, _; (split; [reflexivity|]); repeat split; discriminate.
    + destruct (model_transcribe model_size audio_path _) as [e|[segs lang]]; simpl;
        eexists _, _; (split; [reflexivity|]); repeat split; discriminate.
  - unfold bind, ret. simpl. eexists _, _. split; [reflexivity|]. done.
Qed.

Lemma keeps_transcribe p audio_path model_size : keeps p (transcribe audio_path model_size).
Proof.
  intros w. destruct (transcribe_spec audio_path model_size w) as (r & w' & E & Ef & Ed & _).
  rewrite E. unfold world_of. simpl. split; [by rewrite Ef|by rewrite Ed].
Qed.

Lemma quiet_transcribe audio_path model_size : quiet (transcribe audio_path model_size).
Proof.
  apply quiet_silent. intros w.
  destruct (transcribe_spec audio_path model_size w) as (r & w' & E & _). by rewrite E.
Qed.

Lemma quiet_load_db : quiet (load_db BASE_DIR).
Proof. apply quiet_silent. intros w. by rewrite load_db_pure. Qed.

Lemma quiet_export_all : quiet (export_all BASE_DIR).
Proof.
  unfold export_all.
  apply quiet_bind; [apply quiet_load_db|]. intros db.
  apply quiet_bind; [apply quiet_write_bytes|]. intros _.
  apply quiet_bind; [apply quiet_lift|]. intros n.
  apply quiet_show. discriminate.
Qed.

Lemma quiet_save_entry e : quiet (save_entry BASE_DIR e).
Proof.
  unfold save_entry.
  apply quiet_bind; [apply quiet_load_db|]. intros db.
  apply quiet_bind; [|intros; apply quiet_write_bytes].
  destruct db; try apply quiet_raise. apply quiet_ret.
Qed.

Lemma quiet_save_audio now up : quiet (save_audio BASE_DIR now up).
Proof.
  unfold save_audio.
  apply quiet_bind; [apply quiet_write_bytes|]. intros _.
  apply quiet_bind; [apply quiet_show, saved_to_is_not_saved|]. intros _.
  apply quiet_ret.
Qed.

Lemma saved_facts_earlier inp up w0 w1 w' :
  untouched DB w0 w1 -> facts inp up w1 w' -> facts inp up w0 w'.
Proof.
  intros Hu (Hs & Hc & C & asr & HC & Hrest).
  split; [done|]. split; [done|]. exists C, asr.
  split; [|done]. by rewrite <- (store_of_untouched _ _ _ Hu).
Qed.

Lemma saved_facts_later inp up w0 w' w'' :
  untouched DB w' w'' ->
  untouched (saved_path_of BASE_DIR (strftime_id (utcnow_upload inp)) up) w' w'' ->
  facts inp up w0 w' -> facts inp up w0 w''.
Proof.
  intros [Ef Ed] [Ef' Ed'] (Hs & Hc & C & asr & HC & Hdb & Hnd & Hsp & Hnsp & Hasr).
  split; [done|]. split; [done|]. exists C, asr.
  repeat split; try done.
  - by rewrite Ef.
  - by rewrite Ed.
  - by rewrite Ef'.
  - by rewrite Ed'.
Qed.

(** [save_entry] returns only after it has read a list and written it back
    with the entry at its end. *)
Lemma save_entry_ok e w a :
  result_of (save_entry BASE_DIR e w) = inr a ->
  exists C,
    store_of BASE_DIR w = inr (PList C) /\
    world_of (save_entry BASE_DIR e w) =
      set_files (<[DB := list_byte_of_string (dumps (PList (C ++ [e])))]> (files w)) w /\
    (DB ∉ dirs w).
Proof.
  destruct (store_of BASE_DIR w) as [err|v] eqn:Ev.
  - rewrite (save_entry_raises _ _ _ _ Ev). discriminate.
  - destruct (classic_list v) as [[C ->]|Hv].
    + rewrite (save_entry_list _ _ _ _ Ev). intros Hr. exists C.
      split; [done|].
      destruct (write_bytes_cases DB (list_byte_of_string (dumps (PList (C ++ [e])))) w)
        as [(E & Hd & _)|[err E]]; unfold write_text in *; rewrite E in *.
      * done.
      * discriminate.
    + rewrite (save_entry_not_list _ _ _ _ Ev Hv). discriminate.
Qed.

(** [save_audio] returns only after the bytes are in place. *)
Lemma save_audio_ok now up w a :
  result_of (save_audio BASE_DIR now up w) = inr a ->
  let saved_path := saved_path_of BASE_DIR (strftime_id now) up in
  a = (strftime_id now, saved_path) /\
  world_of (save_audio BASE_DIR now up w) =
    set_files (<[saved_path := buffer up]> (files w)) w /\
  (saved_path ∉ dirs w) /\ (parent saved_path ∈ dirs w).
Proof.
  intros Hr saved_path. unfold save_audio in *. fold saved_path in Hr |- *.
  destruct (write_bytes_cases saved_path (buffer up) w) as [(E & Hd & Hp)|[err E]];
    unfold bind, show, ret in *; rewrite E in *; simpl in *.
  - unfold result_of in Hr. simpl in Hr. by inversion Hr.
  - discriminate.
Qed.

Lemma intake_spec inp up w :
  reached_Saved (shown_of (pipeline inp up w)) ->
  facts inp up w (world_of (pipeline inp up w)).
Proof.
  unfold intake. intros Hs.
  apply skip_quiet in Hs as ([ts sp] & Ha & Hs & ->); [|apply quiet_save_audio].
  apply save_audio_ok in Ha as (Ea & Ew1 & Hnsp & _). injection Ea as -> ->.
  set (saved_path := saved_path_of BASE_DIR (strftime_id (utcnow_upload inp)) up) in *.
  set (ts := strftime_id (utcnow_upload inp)) in *.
  set (w1 := world_of (save_audio BASE_DIR (utcnow_upload inp) up w)) in *.
  apply skip_quiet in Hs as (asr & Hasr & Hs & ->); [|apply quiet_transcribe].
  destruct (transcribe_spec (str_path saved_path) (model_choice inp) w1)
    as (r & w2 & Et & Ef2 & Ed2 & Hun).
  rewrite Et in *. unfold result_of in Hasr. simpl in Hasr. subst r.
  change (world_of (inr asr, w2, @nil ui)) with w2 in *.
  apply skip_quiet in Hs as ([] & _ & Hs & ->).
  2: { destruct (error asr); [|apply quiet_ret].
       apply quiet_bind; [by apply quiet_show|]. intros _. by apply quiet_show. }
  assert (world_of
            (match error asr with
             | Some err =>
                 show (st_error ("❌ ASR unavailable: " +:+ err)) ;;;
                 show (st_info "Please paste transcript manually or install faster-whisper.")
             | None => ret tt
             end w2) = w2) as Ew3.
  { by destruct (error asr). }
  rewrite Ew3 in *. clear Ew3.
  destruct (submitted_clicked inp) eqn:Esub; [|by destruct Hs].
  destruct (consent_box inp) eqn:Econ; simpl in Hs |- *.
  2: { destruct Hs as [Hs|[]]. discriminate. }
  apply skip_quiet in Hs as ([] & Hok & _ & ->); [|apply quiet_save_entry].
  apply save_entry_ok in Hok as (C & HC & Ew & Hnd).
  unfold world_of at 1. simpl. rewrite Ew.
  unfold saved_facts. rewrite Esub, Econ. fold ts saved_path.
  split; [done|]. split; [done|]. exists C, asr.
  assert (files w2 !! saved_path = Some (buffer up)) as Hsp2.
  { rewrite Ef2, Ew1. simpl. apply lookup_insert_eq. }
  assert (untouched DB w w2) as Hu.
  { split; [|by rewrite Ed2, Ew1].
    rewrite Ef2, Ew1. simpl.
    apply lookup_insert_ne, saved_path_neq_DB. }
  split; [by rewrite <- (store_of_untouched _ _ _ Hu)|].
  split; [simpl; apply lookup_insert_eq|].
  split; [done|].
  split.
  { simpl. rewrite lookup_insert_ne; [done|]. intros E. by apply (saved_path_neq_DB ts up). }
  split; [|intros Hw; destruct (Hun Hw) as [E _]; by injection E].
  simpl. by rewrite Ed2, Ew1.
Qed.

Lemma through_pipeline_after {A} inp (m : M A) (k : A -> M unit) w :
  quiet m -> keeps DB m ->
  (forall a w1, through inp (k a) w1) ->
  through inp (bind m k) w.
Proof.
  intros Hq Hk IH Hs.
  apply skip_quiet in Hs as (a & _ & Hs & ->); [|done].
  destruct (IH a _ Hs) as (up & Hup & Hp & Hf).
  exists up. split; [done|]. split; [done|].
  eapply saved_facts_earlier; [apply Hk|done].
Qed.

Lemma through_pipeline_before {A} inp (m : M unit) (k : unit -> M A)
    (k' : M unit) w :
  (forall a, quiet (k a)) ->
  (forall a p, p <> OUT -> keeps p (k a)) ->
  through inp m w ->
  reached_Saved (shown_of (bind m k w)) ->
  exists up,
    audio_file inp = Some up /\ process_clicked inp = true /\
    facts inp up w (world_of (bind m k w)).
Proof.
  intros Hq Hk Hm Hs.
  apply drop_quiet in Hs; [|done].
  destruct (Hm Hs) as (up & Hup & Hp & Hf).
  exists up. split; [done|]. split; [done|].
  eapply saved_facts_later; [| |done].
  - apply untouched_after. intros a. apply Hk. apply not_eq_sym, EXPORT_FILE_neq_DB_FILE.
  - apply untouched_after. intros a. apply Hk. apply saved_path_neq_OUT.
Qed.

(** An execution of the script reaches [Saved] only through the pipeline. *)
Lemma script_spec inp w : through inp (run inp) w.
Proof.
  unfold script.
  apply through_pipeline_after;
    [apply quiet_mkdir_p | apply keeps_mkdir_p, UPLOAD_DIR_neq_DB_FILE |].
  intros _ w1.
  apply through_pipeline_after; [apply quiet_assign_MODEL | apply keeps_assign_MODEL |].
  intros _ w2.
  apply through_pipeline_after;
    [by apply quiet_when, quiet_show | apply keeps_when, keeps_show |].
  intros _ w3.
  apply through_pipeline_after; [by apply quiet_show | apply keeps_show |].
  intros _ w4.
  apply through_pipeline_after.
  { apply quiet_when, quiet_bind; [apply quiet_load_db|].
    intros db. by destruct (truthy db); apply quiet_show. }
  { apply keeps_when, keeps_bind; [apply keeps_load_db|].
    intros db. destruct (truthy db); apply keeps_show. }
  intros _ w5 Hs.
  eapply (through_pipeline_before inp _ _ (ret tt)); [| | |exact Hs].
  - intros _. apply quiet_bind; [apply quiet_when, quiet_export_all|].
    intros _. by apply quiet_when, quiet_show.
  - intros _ p Hp. apply keeps_bind; [by apply keeps_when, keeps_export_all, not_eq_sym|].
    intros _. apply keeps_when, keeps_show.
  - intros Hs'. destruct (audio_file inp) as [up|]; [|by destruct Hs'].
    destruct (process_clicked inp); [|by destruct Hs'].
    exists up. split; [done|]. split; [done|]. by apply intake_spec.
Qed.

(** Without consent the script leaves the backing file alone. *)
Lemma keeps_pipeline_no_consent inp up :
  consent_box inp = false -> keeps DB (pipeline inp up).
Proof.
  intros Hc. unfold intake.
  apply keeps_bind.
  { unfold save_audio. apply keeps_bind; [apply keeps_write_bytes, saved_path_neq_DB|].
    intros _. apply keeps_bind; [apply keeps_show|]. intros _. apply keeps_ret. }
  intros [ts sp]. apply keeps_bind; [apply keeps_transcribe|]. intros asr.
  apply keeps_bind.
  { destruct (error asr); [|apply keeps_ret].
    apply keeps_bind; [apply keeps_show|]. intros _. apply keeps_show. }
  intros _. rewrite Hc. simpl. apply keeps_when, keeps_show.
Qed.

Lemma keeps_script_no_consent inp :
  consent_box inp = false -> keeps DB (run inp).
Proof.
  intros Hc. unfold script.
  apply keeps_bind; [apply keeps_mkdir_p, UPLOAD_DIR_neq_DB_FILE|]. intros _.
  apply keeps_bind; [apply keeps_assign_MODEL|]. intros _.
  apply keeps_bind; [apply keeps_when, keeps_show|]. intros _.
  apply keeps_bind; [apply keeps_show|]. intros _.
  apply keeps_bind.
  { apply keeps_when, keeps_bind; [apply keeps_load_db|].
    intros db. destruct (truthy db); apply keeps_show. }
  intros _. apply keeps_bind.
  { destruct (audio_file inp) as [up|]; [|apply keeps_ret].
    by apply keeps_when, keeps_pipeline_no_consent. }
  intros _. apply keeps_bind.
  { apply keeps_when, keeps_export_all, EXPORT_FILE_neq_DB_FILE. }
  intros _. apply keeps_when, keeps_show.
Qed.

(** An execution with an uploaded file, "Process audio" and "Save entry"
    pressed and consent ticked that returns has reached [Saved]. *)
Lemma consent_returned_reaches_Saved inp up w :
  audio_file inp = Some up -> process_clicked inp = true ->
  submitted_clicked inp = true -> consent_box inp = true ->
  result_of (run inp w) = inr tt ->
  reached_Saved (shown_of (run inp w)).
Proof.
  intros Hup Hp Hsub Hcon Hr. unfold script in *. unfold reached_Saved.
  do 5 (apply bind_returned in Hr as (? & _ & Hr & ->);
        rewrite in_app_iff; right).
  apply bind_returned in Hr as (? & Hr & _ & ->). rewrite in_app_iff. left.
  rewrite Hup, Hp in *. simpl in *. unfold intake in *.
  apply bind_returned in Hr as ([ts sp] & _ & Hr & ->). rewrite in_app_iff. right.
  do 2 (apply bind_returned in Hr as (? & _ & Hr & ->);
        rewrite in_app_iff; right).
  rewrite Hsub, Hcon in *. simpl in *.
  apply bind_returned in Hr as (? & _ & _ & ->). rewrite in_app_iff. right.
  by left.
Qed.

(** *** Laws of the pipeline *)

(** C1 (no write on rejection).  An execution whose consent checkbox is not
    ticked leaves the backing file as it was, whatever else it does and
    however it ends: the collection [load_db] reads afterwards is the one it
    read before.  Such an execution never reaches [Saved]. *)
Theorem no_consent_no_write (inp : inputs) (w : world) :
  consent_box inp = false ->
  untouched DB w (world_of (run inp w)) /\
  store_of BASE_DIR (world_of (run inp w)) = store_of BASE_DIR w /\
  ~ reached_Saved (shown_of (run inp w)).
Proof.
  intros Hc.
  assert (untouched DB w (world_of (run inp w))) as Hu
    by by apply keeps_script_no_consent.
  split; [done|]. split; [by apply store_of_untouched|].
  intros Hs. destruct (script_spec inp w Hs) as (up & _ & _ & _ & Hc' & _).
  congruence.
Qed.


(** C9 (what an entry records).  The entry an execution persists carries in
    [uploaded_at] the same timestamp token as in [id], the one made from the
    clock at upload; its keys are the twelve fields of the data model, and
    [consent] is not among them. *)
Theorem persisted_entry_fields (inp : inputs) (w : world) :
  reached_Saved (shown_of (run inp w)) ->
  let ts := strftime_id (utcnow_upload inp) in
  exists up C asr d,
    entry inp ts (saved_path_of BASE_DIR ts up) asr = PDict d /\
    files (world_of (run inp w)) !! DB =
      Some (list_byte_of_string (dumps (PList (C ++ [PDict d])))) /\
    dict_get "uploaded_at" d = dict_get "id" d /\
    dict_get "id" d = Some (PStr ts) /\
    dict_get "consent" d = None /\
    dict_keys d =
      ["id"; "title"; "performer"; "location"; "context"; "date_of_recording";
       "uploaded_at"; "audio_path"; "transcript"; "transliteration";
       "translation"; "detected_language"].
Proof.
  intros Hs ts.
  destruct (script_spec inp w Hs)
    as (up & _ & _ & _ & _ & C & asr & _ & Hdb & _).
  eexists up, C, asr, _. split; [reflexivity|]. split; [exact Hdb|]. done.
Qed.

End Pipeline.

(** ** Audio intake *)















Section AudioIntake.

Variable BASE_DIR : path.

Local Abbreviation UPLOADS := (UPLOAD_DIR BASE_DIR).


End AudioIntake.

(** ** The provider adapters *)

Section Providers.

Context `{JsonModule}.
Variable BASE_DIR : path.
Variable WHISPER_AVAILABLE : bool.
Variable TRANSLIT_AVAILABLE : bool.
Variable model_transcribe : string -> string -> world -> exn + (list segment * string).
Variable transliterate : string -> scheme -> scheme -> string.

Local Abbreviation DB := (DB_FILE BASE_DIR).
Local Abbreviation run :=
  (script BASE_DIR WHISPER_AVAILABLE TRANSLIT_AVAILABLE model_transcribe transliterate).

(** C7, as the code has it.  [romanize] returns the empty string when
    indic-transliteration is missing, and otherwise whatever the library
    returns for the text under the scheme of the language code, Devanagari
    for a code it does not know.  The empty result for an empty or
    white-space-only text is the work of the caller, line 281: the
    transliteration the pipeline computes is empty when the library is
    missing and when the transcript is empty or white space only. *)
Theorem romanize_and_its_guard (text lang_code : string) :
  romanize false transliterate text lang_code = "" /\
  romanize true transliterate text lang_code =
    transliterate text (scheme_get lang_code lang_to_scheme DEVANAGARI) ITRANS /\
  transliteration_of false transliterate text lang_code = "" /\
  (strip text = "" ->
   transliteration_of TRANSLIT_AVAILABLE transliterate text lang_code = "").
Proof.
  split; [done|]. split; [done|]. split.
  - unfold transliteration_of. by destruct (negb _).
  - intros Hb. unfold transliteration_of. by rewrite Hb.
Qed.


End Providers.

(** ** The properties on the sample data *)

Import Sample.

(** Decides a decidable proposition by evaluation. *)
Ltac by_evaluation :=
  match goal with
  | |- ?P =>
      let d := constr:(_ : Decision P) in
      apply (@bool_decide_unpack P d); vm_compute; exact I
  end.

(** C1 on scenario 3: the store of three entries is what it was, and the
    execution did not reach [Saved]. *)
Lemma no_consent_no_write_witness :
  consent_box declined = false /\
  store_of base
    (world_of (script base false true no_model passthrough declined
                 (holding three_entries)))
  = inr (PList three_entries) /\
  ~ reached_Saved
      (shown_of (script base false true no_model passthrough declined
                   (holding three_entries))).
Proof.
  split; [reflexivity|].
  destruct (no_consent_no_write base false true no_model passthrough declined
              (holding three_entries)) as (_ & Hstore & Hquiet).
  - reflexivity.
  - split; [|exact Hquiet]. rewrite Hstore. vm_compute. reflexivity.
Defined.




(** The same execution, evaluated: four entries afterwards, the last with
    the path of the saved upload, where the uploaded bytes are. *)
Example scenario1_after_three_entries :
  let r := script base false false no_model passthrough scenario1
             (holding three_entries) in
  exists d,
    store_of base (world_of r) = inr (PList (three_entries ++ [PDict d])) /\
    dict_get "audio_path" d
      = Some (PStr "/srv/lokgeet/app/uploads/20240309T070501Z.wav") /\
    files (world_of r) !! path_div (UPLOAD_DIR base) "20240309T070501Z.wav"
      = Some (buffer song1).
Proof.
  eexists. split; [vm_compute; reflexivity|]. split; [reflexivity|].
  vm_compute. reflexivity.
Qed.



(** C7: what [romanize] and the guard around it do on a blank text. *)
Lemma romanize_and_its_guard_witness :
  romanize false passthrough "   " "hi" = "" /\
  transliteration_of true passthrough "   " "hi" = "".
Proof.
  destruct (romanize_and_its_guard true passthrough "   " "hi")
    as (Hoff & _ & _ & Hblank).
  split; [exact Hoff|]. apply Hblank. vm_compute. reflexivity.
Defined.

(** C7 as stated fails: [romanize] does not look at its text.  With the
    library present it hands a text of two spaces to the library and returns
    what comes back, here the two spaces. *)
Lemma romanize_blank_text_counterexample :
  strip "  " = "" /\
  romanize true passthrough "  " "hi" = "  " /\
  ~ (forall (available : bool) (translit : string -> scheme -> scheme -> string)
            (text lang_code : string),
       available = false \/ strip text = "" ->
       romanize available translit text lang_code = "").
Proof.
  split; [vm_compute; reflexivity|]. split; [reflexivity|].
  intros Hclaim.
  specialize (Hclaim true passthrough "  " "hi" (or_intror eq_refl)).
  discriminate Hclaim.
Qed.



(** C9 on scenario 1. *)
Lemma persisted_entry_fields_witness :
  exists C d,
    files (world_of (script base false true no_model passthrough scenario1 fresh))
      !! DB_FILE base
      = Some (list_byte_of_string (dumps (PList (C ++ [PDict d])))) /\
    dict_get "uploaded_at" d = dict_get "id" d /\
    dict_get "id" d = Some (PStr "20240309T070501Z") /\
    dict_get "consent" d = None.
Proof.
  destruct (persisted_entry_fields base false true no_model passthrough scenario1 fresh)
    as (up & C & asr & d & _ & Hdb & Hsame & Hid & Hconsent & _).
  - vm_compute. auto 10.
  - exists C, d. repeat split; assumption.
Defined.

(** * Further properties of the code *)

(** ** The model cache and the ASR adapter *)

Section Adapters.

Variable model_transcribe : string -> string -> world -> exn + (list segment * string).
Variable transliterate : string -> scheme -> scheme -> string.


(** The model a call of [transcribe_with_whisper] works with: the one in
    [MODEL], or one of the requested size. *)
Definition model_in_use (model_size : string) (w : world) : string :=
  default model_size (MODEL w).

(** X2.  With faster-whisper present, [transcribe_with_whisper] hands the audio
    path to the model in use.  When the model answers, the result has no
    [error] key, its transcript is the stripped segment texts joined by one
    space, and its language is the one the model reports; no file or
    directory has changed and the model in use is the one in [MODEL]. *)
Theorem transcribe_joins_stripped_segments (audio_path model_size : string)
    (w : world) (segs : list segment) (lang : string) :
  let m := model_in_use model_size w in
  model_transcribe m audio_path (set_MODEL (Some m) w) = inr (segs, lang) ->
  exists r,
    transcribe_with_whisper true model_transcribe audio_path model_size w
    = (inr r, set_MODEL (Some m) w, []) /\
    transcript r = String.concat " " (map (fun s => strip (seg_text s)) segs) /\
    language r = Some lang /\
    error r = None.
Proof.
  intros m Hok. unfold transcribe_with_whisper, load_model.
  unfold bind, get_world, assign_MODEL, ret, lift. simpl.
  unfold m, model_in_use in *.
  destruct (MODEL w) as [m0|] eqn:Em; simpl in *.
  - assert (set_MODEL (Some m0) w = w) as Ew by (destruct w; simpl in *; by subst).
    rewrite Ew in *. rewrite Hok. simpl. eexists. split; [reflexivity|]. done.
  - rewrite Hok. simpl. eexists. split; [reflexivity|]. done.
Qed.


(** The language codes [romanize] knows. *)
Definition known_codes : list string := ["hi"; "mr"; "bn"; "ta"; "te"].

(** X4.  [romanize] and the language code: Hindi and Marathi go through
    Devanagari, Bengali, Tamil and Telugu through their own script, and any
    other code, the empty one included, through Devanagari too; the target
    is always ITRANS. *)
Theorem romanize_scheme_of_code (text lang_code : string) :
  romanize true transliterate text "hi" = transliterate text DEVANAGARI ITRANS /\
  romanize true transliterate text "mr" = transliterate text DEVANAGARI ITRANS /\
  romanize true transliterate text "bn" = transliterate text BENGALI ITRANS /\
  romanize true transliterate text "ta" = transliterate text TAMIL ITRANS /\
  romanize true transliterate text "te" = transliterate text TELUGU ITRANS /\
  (~ In lang_code known_codes ->
   romanize true transliterate text lang_code = transliterate text DEVANAGARI ITRANS).
Proof.
  repeat (split; [reflexivity|]).
  intros Hn. unfold romanize. simpl.
  repeat match goal with
  | |- context [String.eqb lang_code ?k] =>
      destruct (String.eqb_spec lang_code k) as [->|_];
        [exfalso; apply Hn; simpl; tauto|]
  end.
  reflexivity.
Qed.

End Adapters.

(** ** More on the entry store *)

Section StoreEdges.

Context `{JsonModule}.
Variable BASE_DIR : path.

Local Abbreviation DB := (DB_FILE BASE_DIR).
Local Abbreviation OUT := (EXPORT_FILE BASE_DIR).

(** X5.  [save_entry] writes only after it has read a list.  When [load_db]
    raises, [save_entry] raises the same exception; when [load_db] returns
    a value that is not a list (an object, a string, a number, [null]),
    [db.append] raises [AttributeError].  Either way nothing is written and
    nothing shown: the world is as before. *)
Theorem save_entry_raises_before_writing (entry : pyval) (w : world) :
  (forall l, store_of BASE_DIR w <> inr (PList l)) ->
  exists e,
    save_entry BASE_DIR entry w = (inl e, w, []) /\
    (store_of BASE_DIR w = inl e \/
     (exists v, store_of BASE_DIR w = inr v) /\ e = AttributeError).
Proof.
  intros Hnl. destruct (store_of BASE_DIR w) as [e|v] eqn:Ev.
  - exists e. split; [by apply save_entry_raises|by left].
  - exists AttributeError. split; [|right; eauto].
    apply (save_entry_not_list _ _ _ v); [done|]. intros l ->. by apply (Hnl l).
Qed.


(** X7.  The export when the store cannot be read: the exception of [load_db] is
    the exception of the export, and [export.json] is not written; the world
    is as before. *)
Theorem export_all_raises_before_writing (w : world) (e : exn) :
  store_of BASE_DIR w = inl e ->
  export_all BASE_DIR w = (inl e, w, []).
Proof. intros He. unfold export_all, bind. by rewrite load_db_pure, He. Qed.


End StoreEdges.

(** ** Identifiers and upload paths *)






Section Uploads.

Variable BASE_DIR : path.

Local Abbreviation UPLOADS := (UPLOAD_DIR BASE_DIR).

(** X10.  Two uploads within one second.  When two files with the same suffix are
    saved under the same identifier, both saves target one path and the
    second replaces the bytes of the first: the identifier does not tell
    the uploads apart. *)
Theorem save_audio_same_second_overwrites (now1 now2 : datetime)
    (up1 up2 : upload) (w : world) :
  strftime_id now1 = strftime_id now2 ->
  suffix (name up1) = suffix (name up2) ->
  UPLOADS ∈ dirs w ->
  saved_path_of BASE_DIR (strftime_id now1) up1 ∉ dirs w ->
  exists w' out,
    (first <- save_audio BASE_DIR now1 up1 ;;
     second <- save_audio BASE_DIR now2 up2 ;;
     ret (snd first, snd second)) w
    = (inr (saved_path_of BASE_DIR (strftime_id now1) up1,
            saved_path_of BASE_DIR (strftime_id now1) up1), w', out) /\
    files w' !! saved_path_of BASE_DIR (strftime_id now1) up1 = Some (buffer up2).
Proof.
  intros Ets Esuf Hup Hnd.
  assert (saved_path_of BASE_DIR (strftime_id now2) up2
          = saved_path_of BASE_DIR (strftime_id now1) up1) as Esp.
  { unfold saved_path_of. by rewrite Ets, Esuf. }
  set (sp := saved_path_of BASE_DIR (strftime_id now1) up1) in *.
  assert (parent sp = UPLOADS) as Hpar by apply parent_path_div.
  unfold save_audio. rewrite Esp. fold sp.
  unfold bind, write_bytes, show, ret. simpl.
  rewrite (bool_decide_eq_false_2 _ Hnd), Hpar, (bool_decide_eq_true_2 _ Hup).
  simpl. rewrite (bool_decide_eq_false_2 _ Hnd), (bool_decide_eq_true_2 _ Hup).
  simpl. eexists _, _. split; [reflexivity|].
  simpl. apply lookup_insert_eq.
Qed.

End Uploads.

(** ** What an execution leaves in place *)

(** Nothing is lost between [w] and [w']: every file of [w] is still a file
    and every directory still a directory. *)
Definition grows (w w' : world) : Prop :=
  (forall p, is_Some (files w !! p) -> is_Some (files w' !! p)) /\
  (forall p, p ∈ dirs w -> p ∈ dirs w').

(** The statement [m] deletes nothing, however it ends. *)
Definition never_deletes {A} (m : M A) : Prop :=
  forall w, grows w (world_of (m w)).

Lemma grows_refl w : grows w w.
Proof. by split. Qed.

Lemma grows_trans w1 w2 w3 : grows w1 w2 -> grows w2 w3 -> grows w1 w3.
Proof. intros [F1 D1] [F2 D2]. split; auto. Qed.

Lemma never_deletes_same {A} (m : M A) :
  (forall w, files (world_of (m w)) = files w /\ dirs (world_of (m w)) = dirs w) ->
  never_deletes m.
Proof. intros E w. destruct (E w) as [Ef Ed]. split; intros p; by rewrite ?Ef, ?Ed. Qed.

Lemma never_deletes_bind {A B} (m : M A) (k : A -> M B) :
  never_deletes m -> (forall a, never_deletes (k a)) -> never_deletes (bind m k).
Proof.
  intros Hm Hk w. rewrite bind_unfold.
  destruct (result_of (m w)) as [e|a] eqn:E; unfold world_of at 1; simpl.
  - apply Hm.
  - eapply grows_trans; [apply Hm|apply Hk].
Qed.

Lemma never_deletes_ret {A} (a : A) : never_deletes (ret a).
Proof. intros w. apply grows_refl. Qed.

Lemma never_deletes_show u : never_deletes (show u).
Proof. intros w. apply grows_refl. Qed.

Lemma never_deletes_lift {A} (r : exn + A) : never_deletes (lift r).
Proof. intros w. apply grows_refl. Qed.

Lemma never_deletes_raise {A} e : never_deletes (@raise A e).
Proof. intros w. apply grows_refl. Qed.

Lemma never_deletes_assign_MODEL m : never_deletes (assign_MODEL m).
Proof. by apply never_deletes_same. Qed.

Lemma never_deletes_when c body : never_deletes body -> never_deletes (when c body).
Proof. destruct c; simpl; [done|]. intros _. apply never_deletes_ret. Qed.

Lemma never_deletes_mkdir_p p : never_deletes (mkdir_p p).
Proof.
  intros w. unfold mkdir_p, world_of.
  destruct (files w !! p); simpl; [apply grows_refl|].
  split; simpl; [done|]. intros q Hq. rewrite elem_of_union. by right.
Qed.

Lemma never_deletes_write_bytes p b : never_deletes (write_bytes p b).
Proof.
  intros w. destruct (write_bytes_cases p b w) as [(E & _)|[e E]]; rewrite E;
    unfold world_of; simpl; [|apply grows_refl].
  split; simpl; [|done]. intros q Hq.
  destruct (decide (p = q)) as [->|Hne];
    [rewrite lookup_insert_eq; eauto | by rewrite lookup_insert_ne].
Qed.

(** A statement that returns and leaves the world as it found it. *)
Definition inert {A} (m : M A) (w : world) : Prop :=
  exists a o, m w = (inr a, w, o).

Lemma world_of_bind_returned {A B} (m : M A) (k : A -> M B) w a w1 o1 :
  m w = (inr a, w1, o1) -> world_of (bind m k w) = world_of (k a w1).
Proof. intros E. rewrite bind_unfold, E. reflexivity. Qed.

Lemma world_of_bind_inert {A B} (m : M A) (k : A -> M B) w :
  inert m w -> exists a, world_of (bind m k w) = world_of (k a w).
Proof. intros (a & o & E). exists a. by apply (world_of_bind_returned _ _ _ _ _ o). Qed.

Lemma inert_show u w : inert (show u) w.
Proof. by eexists _, _. Qed.

Lemma inert_when_show c u w : inert (when c (show u)) w.
Proof. destruct c; by eexists _, _. Qed.

(** ** Whole executions *)

Section Executions.

Context `{JsonModule}.
Variable BASE_DIR : path.
Variable WHISPER_AVAILABLE : bool.
Variable TRANSLIT_AVAILABLE : bool.
Variable model_transcribe : string -> string -> world -> exn + (list segment * string).
Variable transliterate : string -> scheme -> scheme -> string.

Local Abbreviation DB := (DB_FILE BASE_DIR).
Local Abbreviation OUT := (EXPORT_FILE BASE_DIR).
Local Abbreviation UPLOADS := (UPLOAD_DIR BASE_DIR).
Local Abbreviation transcribe :=
  (transcribe_with_whisper WHISPER_AVAILABLE model_transcribe).
Local Abbreviation pipeline :=
  (intake BASE_DIR WHISPER_AVAILABLE TRANSLIT_AVAILABLE model_transcribe transliterate).
Local Abbreviation run :=
  (script BASE_DIR WHISPER_AVAILABLE TRANSLIT_AVAILABLE model_transcribe transliterate).

(** The path the upload of an execution goes to. *)
Definition upload_target (inp : inputs) (up : upload) : path :=
  saved_path_of BASE_DIR (strftime_id (utcnow_upload inp)) up.

Lemma never_deletes_load_db : never_deletes (load_db BASE_DIR).
Proof. intros w. rewrite load_db_pure. apply grows_refl. Qed.

Lemma never_deletes_save_entry e : never_deletes (save_entry BASE_DIR e).
Proof.
  unfold save_entry.
  apply never_deletes_bind; [apply never_deletes_load_db|]. intros db.
  apply never_deletes_bind; [|intros; apply never_deletes_write_bytes].
  destruct db; try apply never_deletes_raise. apply never_deletes_ret.
Qed.

Lemma never_deletes_export_all : never_deletes (export_all BASE_DIR).
Proof.
  unfold export_all.
  apply never_deletes_bind; [apply never_deletes_load_db|]. intros db.
  apply never_deletes_bind; [apply never_deletes_write_bytes|]. intros _.
  apply never_deletes_bind; [apply never_deletes_lift|]. intros n.
  apply never_deletes_show.
Qed.

Lemma never_deletes_transcribe audio_path model_size :
  never_deletes (transcribe audio_path model_size).
Proof.
  apply never_deletes_same. intros w.
  destruct (transcribe_spec WHISPER_AVAILABLE model_transcribe audio_path model_size w)
    as (r & w' & E & Ef & Ed & _).
  by rewrite E.
Qed.

Lemma never_deletes_pipeline inp up : never_deletes (pipeline inp up).
Proof.
  unfold intake.
  apply never_deletes_bind.
  { unfold save_audio. apply never_deletes_bind; [apply never_deletes_write_bytes|].
    intros _. apply never_deletes_bind; [apply never_deletes_show|].
    intros _. apply never_deletes_ret. }
  intros [ts sp]. apply never_deletes_bind; [apply never_deletes_transcribe|].
  intros asr. apply never_deletes_bind.
  { destruct (error asr); [|apply never_deletes_ret].
    apply never_deletes_bind; [apply never_deletes_show|].
    intros _. apply never_deletes_show. }
  intros _. apply never_deletes_when.
  destruct (negb (consent_box inp)); [apply never_deletes_show|].
  apply never_deletes_bind; [apply never_deletes_save_entry|].
  intros _. apply never_deletes_show.
Qed.

Lemma never_deletes_script inp : never_deletes (run inp).
Proof.
  unfold script.
  apply never_deletes_bind; [apply never_deletes_mkdir_p|]. intros _.
  apply never_deletes_bind; [apply never_deletes_assign_MODEL|]. intros _.
  apply never_deletes_bind; [apply never_deletes_when, never_deletes_show|]. intros _.
  apply never_deletes_bind; [apply never_deletes_show|]. intros _.
  apply never_deletes_bind.
  { apply never_deletes_when, never_deletes_bind; [apply never_deletes_load_db|].
    intros db. destruct (truthy db); apply never_deletes_show. }
  intros _. apply never_deletes_bind.
  { destruct (audio_file inp) as [up|]; [|apply never_deletes_ret].
    apply never_deletes_when, never_deletes_pipeline. }
  intros _. apply never_deletes_bind; [apply never_deletes_when, never_deletes_export_all|].
  intros _. apply never_deletes_when, never_deletes_show.
Qed.

(** The pipeline writes to two paths only. *)
Lemma keeps_pipeline_elsewhere inp up p :
  p <> upload_target inp up -> p <> DB -> keeps p (pipeline inp up).
Proof.
  intros Hsp Hdb. unfold intake.
  apply keeps_bind.
  { unfold save_audio. apply keeps_bind; [by apply keeps_write_bytes, not_eq_sym|].
    intros _. apply keeps_bind; [apply keeps_show|]. intros _. apply keeps_ret. }
  intros [ts sp]. apply keeps_bind; [apply keeps_transcribe|]. intros asr.
  apply keeps_bind.
  { destruct (error asr); [|apply keeps_ret].
    apply keeps_bind; [apply keeps_show|]. intros _. apply keeps_show. }
  intros _. apply keeps_when.
  destruct (negb (consent_box inp)); [apply keeps_show|].
  apply keeps_bind; [by apply keeps_save_entry, not_eq_sym|].
  intros _. apply keeps_show.
Qed.

(** The statements of the script around the pipeline, with [middle] in the
    place of lines 254-316, keep what [middle] keeps, the upload directory
    and [export.json] apart. *)
Lemma keeps_script_around inp p :
  p <> UPLOADS -> p <> OUT ->
  keeps p (match audio_file inp with
           | Some up => when (process_clicked inp) (pipeline inp up)
           | None => ret tt
           end) ->
  keeps p (run inp).
Proof.
  intros Hu Ho Hmid. unfold script.
  apply keeps_bind; [by apply keeps_mkdir_p, not_eq_sym|]. intros _.
  apply keeps_bind; [apply keeps_assign_MODEL|]. intros _.
  apply keeps_bind; [apply keeps_when, keeps_show|]. intros _.
  apply keeps_bind; [apply keeps_show|]. intros _.
  apply keeps_bind.
  { apply keeps_when, keeps_bind; [apply keeps_load_db|].
    intros db. destruct (truthy db); apply keeps_show. }
  intros _. apply keeps_bind; [exact Hmid|].
  intros _. apply keeps_bind; [by apply keeps_when, keeps_export_all, not_eq_sym|].
  intros _. apply keeps_when, keeps_show.
Qed.

(** X11.  An execution touches four paths at most and deletes nothing.  Whatever
    the inputs and however it ends, every path other than the upload
    directory, the target of the upload, [data.json] and [export.json] is
    after the execution what it was before; and every file and every
    directory that existed before still exists. *)
Theorem script_touches_four_paths (inp : inputs) (w : world) (p : path) :
  p <> UPLOADS -> p <> OUT -> p <> DB ->
  (forall up, audio_file inp = Some up -> p <> upload_target inp up) ->
  untouched p w (world_of (run inp w)) /\
  grows w (world_of (run inp w)).
Proof.
  intros Hu Ho Hd Hsp. split; [|apply never_deletes_script].
  apply keeps_script_around; [done|done|].
  destruct (audio_file inp) as [up|]; [|apply keeps_ret].
  apply keeps_when, keeps_pipeline_elsewhere; [by apply Hsp|done].
Qed.

(** X12.  Without "Process audio" nothing is stored.  An execution with no
    uploaded file, or with the button not pressed, leaves every path other
    than the upload directory and [export.json] as it was, [data.json]
    included, whatever the consent box and the "Save entry" button say. *)
Theorem no_process_no_intake (inp : inputs) (w : world) (p : path) :
  audio_file inp = None \/ process_clicked inp = false ->
  p <> UPLOADS -> p <> OUT ->
  untouched p w (world_of (run inp w)).
Proof.
  intros Hidle Hu Ho. apply keeps_script_around; [done|done|].
  destruct Hidle as [-> | Hp]; [apply keeps_ret|].
  destruct (audio_file inp); [|apply keeps_ret]. rewrite Hp. apply keeps_ret.
Qed.








(** Once the upload is written, the rest of the pipeline leaves it alone. *)
Lemma pipeline_keeps_upload inp up w :
  upload_target inp up ∉ dirs w ->
  UPLOADS ∈ dirs w ->
  files (world_of (pipeline inp up w)) !! upload_target inp up = Some (buffer up).
Proof.
  intros Hnd Hup. set (sp := upload_target inp up) in *.
  assert (save_audio BASE_DIR (utcnow_upload inp) up w
          = (inr (strftime_id (utcnow_upload inp), sp),
             set_files (<[sp := buffer up]> (files w)) w,
             [st_success ("✅ Saved to " +:+ str_path sp)])) as E.
  { unfold save_audio. fold (upload_target inp up). fold sp.
    unfold bind, write_bytes, show, ret.
    rewrite (bool_decide_eq_false_2 _ Hnd).
    rewrite bool_decide_eq_true_2; [done|].
    unfold sp, upload_target, saved_path_of. by rewrite parent_path_div. }
  unfold intake.
  match goal with
  | |- files (world_of (bind ?m ?k w)) !! _ = _ =>
      pose proof (untouched_after m k sp w) as Hu
  end.
  destruct Hu as [Hf _].
  - intros [ts p]. apply keeps_bind; [apply keeps_transcribe|]. intros asr.
    apply keeps_bind.
    { destruct (error asr); [|apply keeps_ret].
      apply keeps_bind; [apply keeps_show|]. intros _. apply keeps_show. }
    intros _. apply keeps_when.
    destruct (negb (consent_box inp)); [apply keeps_show|].
    apply keeps_bind; [|intros; apply keeps_show].
    apply keeps_save_entry, not_eq_sym, saved_path_neq_DB.
  - rewrite Hf, E. unfold world_of. simpl. apply lookup_insert_eq.
Qed.

(** The "Show saved entries" handler, when it is reached with a store that
    can be read, returns and leaves the world as it is. *)
Lemma inert_show_handler (c : bool) w :
  (c = true -> exists v, store_of BASE_DIR w = inr v) ->
  inert (when c
           (db <- load_db BASE_DIR ;;
            if truthy db then show (st_json db)
            else show (st_info "No entries saved yet."))) w.
Proof.
  intros Hc. destruct c; [|by eexists _, _].
  destruct Hc as [v Hv]; [done|]. simpl.
  unfold inert, bind. rewrite load_db_pure, Hv.
  destruct (truthy v); by eexists _, _.
Qed.

(** X14.  The upload outlives the submission.  When a file is uploaded and
    "Process audio" pressed, and the execution gets as far as line 259, the
    uploaded bytes are at the target path when the execution ends, however
    it ends: with consent withheld, with the model raising, with a store
    that cannot be appended to.  Nothing removes the file again. *)
Theorem upload_outlives_submission (inp : inputs) (up : upload) (w : world) :
  audio_file inp = Some up ->
  process_clicked inp = true ->
  files w !! UPLOADS = None ->
  (show_clicked inp = true -> exists v, store_of BASE_DIR w = inr v) ->
  upload_target inp up ∉ dirs w ->
  files (world_of (run inp w)) !! upload_target inp up = Some (buffer up).
Proof.
  intros Haf Hp Hup Hshow Hnd. set (sp := upload_target inp up) in *.
  set (w1 := set_dirs ({[UPLOADS]} ∪ dirs w) w).
  set (w2 := set_MODEL None w1).
  assert (mkdir_p UPLOADS w = (inr tt, w1, [])) as E1.
  { unfold mkdir_p. by rewrite Hup. }
  assert (untouched DB w w2) as Hdb.
  { split; [done|]. simpl. rewrite elem_of_union, elem_of_singleton.
    split; [intros [E|E]; [by destruct (UPLOAD_DIR_neq_DB_FILE BASE_DIR)|done]|by right]. }
  assert (sp ∉ dirs w2) as Hnd2.
  { simpl. rewrite elem_of_union, elem_of_singleton.
    intros [E|E]; [|done]. by apply (path_div_neq_self UPLOADS) in E. }
  assert (UPLOADS ∈ dirs w2) as Hup2.
  { simpl. rewrite elem_of_union, elem_of_singleton. by left. }
  unfold script.
  rewrite (world_of_bind_returned _ _ _ _ _ _ E1).
  rewrite (world_of_bind_returned _ _ w1 tt w2 [] eq_refl).
  match goal with
  | |- files (world_of (bind ?m ?k w2)) !! _ = _ =>
      destruct (world_of_bind_inert m k w2 (inert_when_show _ _ _)) as [? ->]
  end.
  match goal with
  | |- files (world_of (bind ?m ?k w2)) !! _ = _ =>
      destruct (world_of_bind_inert m k w2 (inert_show _ _)) as [? ->]
  end.
  match goal with
  | |- files (world_of (bind ?m ?k w2)) !! _ = _ =>
      destruct (world_of_bind_inert m k w2) as [? ->]
  end.
  { apply inert_show_handler. intros Hc. destruct (Hshow Hc) as [v Hv].
    exists v. by rewrite (store_of_untouched _ _ _ Hdb). }
  match goal with
  | |- files (world_of (bind ?m ?k w2)) !! _ = _ =>
      destruct (untouched_after m k sp w2) as [-> _]
  end.
  { intros _. apply keeps_bind.
    - apply keeps_when, keeps_export_all, not_eq_sym, saved_path_neq_OUT.
    - intros _. apply keeps_when, keeps_show. }
  rewrite Haf, Hp. simpl. by apply pipeline_keeps_upload.
Qed.

(** X15.  Consent withheld is reported.  A submission without consent that runs
    to its end has shown the operator that consent is required. *)
Theorem consent_withheld_is_reported (inp : inputs) (up : upload) (w : world) :
  audio_file inp = Some up -> process_clicked inp = true ->
  submitted_clicked inp = true -> consent_box inp = false ->
  result_of (run inp w) = inr tt ->
  In (st_error consent_required_msg) (shown_of (run inp w)).
Proof.
  intros Hup Hp Hsub Hcon Hr. unfold script in *.
  do 5 (apply bind_returned in Hr as (? & _ & Hr & ->);
        rewrite in_app_iff; right).
  apply bind_returned in Hr as (? & Hr & _ & ->). rewrite in_app_iff. left.
  rewrite Hup, Hp in *. simpl in *. unfold intake in *.
  apply bind_returned in Hr as ([ts sp] & _ & Hr & ->). rewrite in_app_iff. right.
  do 2 (apply bind_returned in Hr as (? & _ & Hr & ->);
        rewrite in_app_iff; right).
  rewrite Hsub, Hcon. simpl. by left.
Qed.

(** The notice under the model selector, shown by every execution. *)
Definition whisper_notice : string :=
  "If <code>faster-whisper</code> isn't installed, transcription will be disabled and you'll be asked to paste text manually.".

(** X16.  "Show saved entries" on its own.  With only that button pressed, the
    execution makes the upload directory, reads the store and shows it as
    JSON when it is a non-empty list (or any other value Python takes for
    true); for an empty list, as for no file at all, [null], [0], an empty
    object or an empty string, it shows "No entries saved yet."; a store
    that cannot be read ends the execution with the exception of
    [load_db]. *)
Theorem show_saved_entries_alone (inp : inputs) (w : world) :
  show_clicked inp = true ->
  audio_file inp = None ->
  record_clicked inp = false -> export_clicked inp = false ->
  csv_clicked inp = false ->
  files w !! UPLOADS = None ->
  let w' := set_MODEL None (set_dirs ({[UPLOADS]} ∪ dirs w) w) in
  run inp w =
    match store_of BASE_DIR w with
    | inl e => (inl e, w', [st_info whisper_notice])
    | inr db =>
        (inr tt, w',
         [st_info whisper_notice;
          if truthy db then st_json db else st_info "No entries saved yet."])
    end.
Proof.
  intros Hs Ha Hr He Hc Hup w'.
  assert (untouched DB w w') as Hdb.
  { split; [done|]. simpl. rewrite elem_of_union, elem_of_singleton.
    split; [intros [E|E]; [by destruct (UPLOAD_DIR_neq_DB_FILE BASE_DIR)|done]|by right]. }
  unfold script. rewrite Hs, Ha, Hr, He, Hc.
  unfold bind at 1, mkdir_p. rewrite Hup.
  unfold bind at 1, assign_MODEL. fold w'.
  unfold bind at 1, when, ret.
  unfold bind at 1, show.
  unfold bind at 1. unfold bind at 1.
  rewrite load_db_pure, (store_of_untouched _ _ _ Hdb).
  destruct (store_of BASE_DIR w) as [e|db]; [done|].
  by destruct (truthy db).
Qed.

End Executions.

(** ** When [Saved] is reached *)

Section Saved.

Context `{JsonModule}.
Variable BASE_DIR : path.
Variable WHISPER_AVAILABLE : bool.
Variable TRANSLIT_AVAILABLE : bool.
Variable model_transcribe : string -> string -> world -> exn + (list segment * string).
Variable transliterate : string -> scheme -> scheme -> string.

Local Abbreviation run :=
  (script BASE_DIR WHISPER_AVAILABLE TRANSLIT_AVAILABLE model_transcribe transliterate).

(** X17.  The four conditions of a save.  An execution that runs to its end has
    shown the message of [Saved] exactly when a file was uploaded, "Process
    audio" and "Save entry" were pressed and the consent box was ticked. *)
Theorem saved_exactly_with_consent (inp : inputs) (w : world) :
  result_of (run inp w) = inr tt ->
  reached_Saved (shown_of (run inp w)) <->
  (exists up, audio_file inp = Some up) /\ process_clicked inp = true /\
  submitted_clicked inp = true /\ consent_box inp = true.
Proof.
  intros Hr. split.
  - intros Hs.
    destruct (script_spec _ _ _ _ _ inp w Hs) as (up & Hup & Hp & Hsub & Hcon & _).
    eauto.
  - intros ([up Hup] & Hp & Hsub & Hcon).
    by apply (consent_returned_reaches_Saved _ _ _ _ _ inp up).
Qed.

End Saved.

(** ** The further properties on sample data *)

(** A model that hears two segments of Hindi. *)
Definition two_segments (model_size audio_path : string) (w : world)
  : exn + (list segment * string) :=
  inr ([Segment "0.0" "2.5" " so ja "; Segment "2.5" "4.0" "chanda  "], "hi").

(** A world whose backing file holds the text [t]. *)
Definition holding_text (t : string) : world :=
  World {[DB_FILE base := list_byte_of_string t]} {[base]} None.


Definition song2 : upload := Upload "other take.wav" [x00; x01; x02].

(** Only "Show saved entries" is pressed. *)
Definition browse : inputs :=
  {| audio_file := None;
     record_clicked := false;
     model_choice := "small";
     show_clicked := true;
     process_clicked := false;
     utcnow_upload := clock;
     transcript_box := None;
     language_box := None;
     translit_box := None;
     translation_box := None;
     title_box := None;
     performer_box := None;
     location_box := None;
     context_box := None;
     utcnow_form := clock;
     date_box := None;
     consent_box := true;
     submitted_clicked := true;
     export_clicked := false;
     csv_clicked := false |}.


Lemma transcribe_joins_stripped_segments_witness :
  exists r,
    transcribe_with_whisper true two_segments "/tmp/a.wav" "small" fresh
    = (inr r, set_MODEL (Some "small") fresh, []) /\
    transcript r = "so ja chanda" /\ language r = Some "hi" /\ error r = None.
Proof.
  destruct (transcribe_joins_stripped_segments two_segments "/tmp/a.wav" "small" fresh
              [Segment "0.0" "2.5" " so ja "; Segment "2.5" "4.0" "chanda  "] "hi")
    as (r & Hrun & Ht & Hl & He).
  - reflexivity.
  - exists r. split; [exact Hrun|]. split; [|by split].
    rewrite Ht. vm_compute. reflexivity.
Defined.


(** An object in place of the list: [AttributeError], nothing written. *)
Lemma save_entry_raises_before_writing_witness :
  save_entry base fourth (holding_text "{}")
  = (inl AttributeError, holding_text "{}", []).
Proof.
  destruct (save_entry_raises_before_writing base fourth (holding_text "{}"))
    as (e & Hrun & [Hbad|[_ ->]]).
  - intros l. vm_compute. discriminate.
  - vm_compute in Hbad. discriminate.
  - exact Hrun.
Defined.


Lemma export_all_raises_before_writing_witness :
  export_all base corrupt = (inl JSONDecodeError, corrupt, []).
Proof. apply export_all_raises_before_writing. vm_compute. reflexivity. Defined.



Lemma save_audio_same_second_overwrites_witness :
  exists w' out,
    (first <- save_audio base clock song1 ;;
     second <- save_audio base (Datetime 2024 3 9 7 5 1 7) song2 ;;
     ret (snd first, snd second)) (World ∅ {[base; UPLOAD_DIR base]} None)
    = (inr (saved_path_of base (strftime_id clock) song1,
            saved_path_of base (strftime_id clock) song1), w', out) /\
    files w' !! saved_path_of base (strftime_id clock) song1 = Some (buffer song2).
Proof.
  apply (save_audio_same_second_overwrites base clock (Datetime 2024 3 9 7 5 1 7)
           song1 song2 (World ∅ {[base; UPLOAD_DIR base]} None)).
  - reflexivity.
  - reflexivity.
  - by_evaluation.
  - by_evaluation.
Defined.

Lemma script_touches_four_paths_witness :
  let w := World {[path_div base "app.py" := [x23]]} {[base]} None in
  files (world_of (script base false true no_model passthrough scenario1 w))
    !! path_div base "app.py" = Some [x23].
Proof.
  intros w.
  destruct (script_touches_four_paths base false true no_model passthrough
              scenario1 w (path_div base "app.py")) as [[Hf _] _].
  - by_evaluation.
  - by_evaluation.
  - by_evaluation.
  - intros up Hup. injection Hup as <-. by_evaluation.
  - rewrite Hf. reflexivity.
Defined.

Lemma no_process_no_intake_witness :
  files (world_of (script base false true no_model passthrough browse
                     (holding three_entries))) !! DB_FILE base
  = files (holding three_entries) !! DB_FILE base.
Proof.
  destruct (no_process_no_intake base false true no_model passthrough browse
              (holding three_entries) (DB_FILE base)) as [Hf _].
  - left. reflexivity.
  - by_evaluation.
  - by_evaluation.
  - exact Hf.
Defined.

Lemma upload_outlives_submission_witness :
  files (world_of (script base false true no_model passthrough declined
                     (holding three_entries)))
    !! upload_target base declined song1 = Some (buffer song1).
Proof.
  apply (upload_outlives_submission base false true no_model passthrough declined song1
           (holding three_entries)).
  - reflexivity.
  - reflexivity.
  - reflexivity.
  - intros _. eexists. vm_compute. reflexivity.
  - by_evaluation.
Defined.

Lemma consent_withheld_is_reported_witness :
  In (st_error consent_required_msg)
    (shown_of (script base false true no_model passthrough declined
                 (holding three_entries))).
Proof.
  apply (consent_withheld_is_reported base false true no_model passthrough declined
           song1 (holding three_entries)).
  - reflexivity.
  - reflexivity.
  - reflexivity.
  - reflexivity.
  - vm_compute. reflexivity.
Defined.

Lemma show_saved_entries_alone_witness :
  shown_of (script base false true no_model passthrough browse (holding_text "[]"))
  = [st_info whisper_notice; st_info "No entries saved yet."] /\
  shown_of (script base false true no_model passthrough browse (holding three_entries))
  = [st_info whisper_notice; st_json (PList three_entries)].
Proof.
  split.
  - rewrite (show_saved_entries_alone base false true no_model passthrough browse
               (holding_text "[]")); try reflexivity.
  - rewrite (show_saved_entries_alone base false true no_model passthrough browse
               (holding three_entries)); try reflexivity.
Defined.

Lemma saved_exactly_with_consent_witness :
  reached_Saved
    (shown_of (script base false true no_model passthrough scenario1 fresh)) /\
  ~ reached_Saved
      (shown_of (script base false true no_model passthrough declined
                   (holding three_entries))).
Proof.
  split.
  - apply (saved_exactly_with_consent base false true no_model passthrough
             scenario1 fresh).
    + vm_compute. reflexivity.
    + split; [by exists song1|]. by repeat split.
  - intros Hs.
    apply (saved_exactly_with_consent base false true no_model passthrough
             declined (holding three_entries)) in Hs as (_ & _ & _ & Hc).
    + discriminate Hc.
    + vm_compute. reflexivity.
Defined.
